(** * Session / context lifecycle engine of the conversational agent

    A shallow embedding of three Python classes and of the data they own:

    - [ContextManager]  (src/agent/context_manager.py): the sliding window
      of conversation turns, token-budgeted retrieval, summarisation and
      JSON persistence;
    - [StateManager] with [AgentState] and [JSONStorage]
      (src/agent/state_manager.py): sessions with a time to live, cached in
      memory and stored one JSON file per key;
    - [PluginManager] (src/agent/plugins/base.py): registration, enabling
      and execution of plug-ins.

    Conventions of the embedding.
    - A Python [str] is a list of Unicode code points ([list N]).
    - A Python [int] is a [Z]; a naive [datetime] is a [Z] (microseconds).
    - A method that mutates [self] returns the new object; a method that may
      raise returns a [result] next to the object as the raise left it.
    - Reads of the wall clock ([datetime.now()]) are arguments.
    - A [dict] is a [gmap]; a parsed JSON document is a [json] value. *)

From Stdlib Require Import ZArith NArith List Lia Bool Ascii String.
From Stdlib Require Import Permutation Sorted.
From stdpp Require Import gmap list fin_maps.

Set Warnings "-register-all".
Local Open Scope Z_scope.

(* ===================================================================== *)
(** * Python values *)
(* ===================================================================== *)

(** Python strings are sequences of code points. *)
Abbreviation str := (list N).

Fixpoint of_ascii (s : string) : str :=
  match s with
  | EmptyString => []
  | String c s' => N_of_ascii c :: of_ascii s'
  end.

(** [str.isspace] on one code point: the Unicode white space of CPython
    ([_PyUnicode_IsWhitespace]). *)
Definition isspace (c : N) : bool :=
  (((0x09 <=? c) && (c <=? 0x0D)) || ((0x1C <=? c) && (c <=? 0x20))
   || (c =? 0x85) || (c =? 0xA0) || (c =? 0x1680)
   || ((0x2000 <=? c) && (c <=? 0x200A))
   || (c =? 0x2028) || (c =? 0x2029) || (c =? 0x202F) || (c =? 0x205F)
   || (c =? 0x3000))%N.

Fixpoint lstrip (s : str) : str :=
  match s with
  | [] => []
  | c :: s' => if isspace c then lstrip s' else s
  end.

Definition rstrip (s : str) : str := rev (lstrip (rev s)).

(** [str.strip()] without argument. *)
Definition strip (s : str) : str := rstrip (lstrip s).

Fixpoint startswith (s p : str) : bool :=
  match p, s with
  | [], _ => true
  | _ :: _, [] => false
  | a :: p', b :: s' => (a =? b)%N && startswith s' p'
  end.

(** [sub in s] for strings. *)
Fixpoint contains (s sub : str) : bool :=
  startswith s sub ||
  match s with
  | [] => false
  | _ :: s' => contains s' sub
  end.

(** [s.replace(old, new)] for a one-character [old]. *)
Definition replace_char (old : N) (new : N) (s : str) : str :=
  map (fun c => if (c =? old)%N then new else c) s.

(** A parsed JSON document, as [json.load] returns it and [json.dump]
    takes it: [None], [bool], [int], [float] (kept as its literal text),
    [str], [list], [dict] with string keys. *)
Inductive json : Type :=
| JNull
| JBool (b : bool)
| JInt (z : Z)
| JFloat (literal : str)
| JStr (s : str)
| JArr (items : list json)
| JObj (fields : gmap str json).

(** The fixed part of each message the code puts in an exception. *)
Inductive errmsg : Type :=
| EmptyContent            (* models.py: content is empty or blank *)
| InvalidField (field : str) (* pydantic: a field has the wrong type or value *)
| NotEnoughMessages       (* summarize_old_context: fewer than two messages *)
| NothingToSummarize      (* summarize_old_context: no non-system message *)
| SaveFailed              (* save_to_file *)
| FileMissing (path : str)   (* load_from_file *)
| BadFileFormat           (* load_from_file *)
| KeyMissing (key : str)     (* JSONStorage.load / delete *)
| SessionExpired (id : str)  (* get_session *)
| SessionNotFound (id : str) (* get_session / delete_session *)
| MissingAttribute        (* _validate_plugin: a property raised *)
| InvalidSchema           (* _validate_plugin: not a dict or no "name" *)
| SchemaCheckFailed       (* _validate_plugin: outer wrapper *)
| RegistrationFailed      (* register_plugin *)
| UnregistrationFailed    (* unregister_plugin *)
| PluginNotFound (name : str)
| PluginDisabled (name : str)
| ExecutionFailed.        (* execute_plugin *)

(** Exceptions, by class.  [ValidationError] is pydantic's (a subclass
    of [ValueError]); [PluginExecutionError] is a subclass of
    [PluginError]; [Raised] is any other [Exception] coming from
    collaborator code (a plug-in, the [dict] protocol, the file system).
    [NotFoundError] and [StorageError] are the two classes imported from
    the storage package; the handlers modelled here catch the first one
    only. *)
Inductive exn : Type :=
| ValueError (msg : errmsg)
| ValidationError (msg : errmsg)
| KeyError (key : str)
| FileNotFoundError (msg : errmsg)
| IOError (msg : errmsg)
| NotFoundError (msg : errmsg)
| StorageError (msg : errmsg)
| PluginError (msg : errmsg) (cause : option exn)
| PluginExecutionError (msg : errmsg) (cause : exn)
| Raised (cls : str) (detail : str).

Inductive result (A : Type) : Type :=
| Ok (a : A)
| Err (e : exn).
Arguments Ok {A} a.
Arguments Err {A} e.

(** A file holds JSON text; the file system maps a path to the parsed
    document, or to [None] when the text is not valid JSON.  Reading,
    writing and unlinking an existing file never fail in this model (a
    reliable disk), so the handlers of I/O errors other than a missing
    file are not taken. *)
Abbreviation filesystem := (gmap str (option json)).

Definition bind {A B : Type} (r : result A) (k : A -> result B) : result B :=
  match r with
  | Ok a => k a
  | Err e => Err e
  end.

Notation "'perform' x <- r ; k" := (bind r (fun x => k))
  (at level 10, x name, r at level 100, k at level 200).

Definition is_not_found (e : exn) : bool :=
  match e with NotFoundError _ => true | _ => false end.

(* ===================================================================== *)
(** * models.py *)
(* ===================================================================== *)

Inductive Role : Type := user | assistant | system.

Definition role_str (r : Role) : str :=
  match r with
  | user => of_ascii "user"
  | assistant => of_ascii "assistant"
  | system => of_ascii "system"
  end.

Definition role_of_str (s : str) : option Role :=
  if decide (s = of_ascii "user") then Some user
  else if decide (s = of_ascii "assistant") then Some assistant
  else if decide (s = of_ascii "system") then Some system
  else None.

Record Message : Type := mkMessage {
  role : Role;
  content : str;
  timestamp : Z;
  metadata : option (gmap str str)
}.

(** [Conversation]: the UUID is kept as its text. *)
Record Conversation : Type := mkConversation {
  conv_id : str;
  conv_messages : list Message;
  conv_created_at : Z;
  conv_updated_at : Z
}.

Definition is_system (m : Message) : bool :=
  match role m with system => true | _ => false end.

Definition non_system (m : Message) : bool := negb (is_system m).

Module MessageModel.

(** [Message.validate_content]. *)
Definition validate_content (v : str) : result str :=
  match v with
  | [] => Err (ValidationError EmptyContent)
  | _ =>
      match strip v with
      | [] => Err (ValidationError EmptyContent)
      | stripped => Ok stripped
      end
  end.

(** [Message(role=..., content=..., metadata=...)]: the content is
    validated and stripped, the timestamp is the clock reading [now]
    ([default_factory=datetime.now]). *)
Definition new (r : Role) (c : str) (md : option (gmap str str)) (now : Z)
  : result Message :=
  match validate_content c with
  | Ok c' => Ok (mkMessage r c' now md)
  | Err e => Err e
  end.

End MessageModel.

(** Python slices [l[start:]] and [l[:stop]]: a negative index counts
    from the end, and indices out of range are clamped. *)
Definition slice_index (n i : Z) : nat :=
  Z.to_nat (if i <? 0 then Z.max (n + i) 0 else Z.min i n).

Definition slice_from {A : Type} (start : Z) (l : list A) : list A :=
  skipn (slice_index (Z.of_nat (length l)) start) l.

Definition slice_to {A : Type} (stop : Z) (l : list A) : list A :=
  firstn (slice_index (Z.of_nat (length l)) stop) l.

Module ConversationModel.

(** [Conversation.add_message]: [now_message] is the clock reading of the
    message's timestamp, [now_updated] the later one of [updated_at]. *)
Definition add_message (r : Role) (c : str) (now_message now_updated : Z)
  (self : Conversation) : result unit * Conversation :=
  match MessageModel.new r c None now_message with
  | Err e => (Err e, self)
  | Ok message =>
      (Ok tt, mkConversation (conv_id self) (conv_messages self ++ [message])
                (conv_created_at self) now_updated)
  end.

(** [Conversation.get_history]. *)
Definition get_history (limit : option Z) (self : Conversation) : list Message :=
  match limit with
  | None => conv_messages self
  | Some limit =>
      if limit >? 0 then slice_from (- limit) (conv_messages self) else []
  end.

(** [Conversation.clear]. *)
Definition clear (now : Z) (self : Conversation) : Conversation :=
  mkConversation (conv_id self) [] (conv_created_at self) now.

End ConversationModel.

(* ===================================================================== *)
(** * context_manager.py *)
(* ===================================================================== *)

Module ContextManager.

(** The object state: [self.messages], [self.max_messages],
    [self.model_name].  The lock carries no data. *)
Record t : Type := mk {
  messages : list Message;
  max_messages : Z;
  model_name : str
}.

Definition set_messages (self : t) (ms : list Message) : t :=
  mk ms (max_messages self) (model_name self).

(** [ContextManager(max_messages, model_name)]. *)
Definition init (max_messages : Z) (model_name : str) : t :=
  mk [] max_messages model_name.

(** The prefix of the summary turn, [f"이전 대화 요약: {summary}"]. *)
Definition summary_prefix : str :=
  [0xC774; 0xC804; 0x20; 0xB300; 0xD654; 0x20; 0xC694; 0xC57D; 0x3A; 0x20]%N.

(** Python's [list.sort(key=...)] is a stable sort; every stable sort
    returns the same list, here by insertion.  The key of the source is
    the pair [(msg.role != "system", msg.timestamp)], compared as tuples
    ([False < True]). *)
Definition sort_key (m : Message) : bool * Z := (non_system m, timestamp m).

Definition key_le (a b : bool * Z) : bool :=
  match fst a, fst b with
  | false, true => true
  | true, false => false
  | _, _ => snd a <=? snd b
  end.

(** The order of the sort, and the chronological order. *)
Definition key_ord (a b : Message) : Prop := key_le (sort_key a) (sort_key b) = true.

Definition by_time (a b : Message) : Prop := timestamp a <= timestamp b.

Definition before (a b : Message) : Prop := timestamp a < timestamp b.

Fixpoint insert_by_key (x : Message) (l : list Message) : list Message :=
  match l with
  | [] => [x]
  | y :: l' =>
      if key_le (sort_key x) (sort_key y) then x :: l
      else y :: insert_by_key x l'
  end.

Definition sort_messages (l : list Message) : list Message :=
  fold_right insert_by_key [] l.

(** [for i, msg in enumerate(self.messages): if msg.role != "system":
    self.messages.pop(i); break]. *)
Fixpoint pop_first_non_system (l : list Message) : list Message :=
  match l with
  | [] => []
  | m :: l' => if is_system m then m :: pop_first_non_system l' else l'
  end.

(** [add_to_context]. *)
Definition add_to_context (message : Message) (self : t) : t :=
  let appended := messages self ++ [message] in
  let non_system_messages := List.filter non_system appended in
  if Z.of_nat (length non_system_messages) >? max_messages self
  then set_messages self (pop_first_non_system appended)
  else set_messages self appended.

(** [len([msg for msg in l if msg.role != "system"])]. *)
Definition count_non_system (l : list Message) : Z :=
  Z.of_nat (length (List.filter non_system l)).

(** A sequence of single-turn appends. *)
Definition add_all (ms : list Message) (self : t) : t :=
  fold_left (fun w m => add_to_context m w) ms self.

Section WithEncoder.

(** [self.encoder.encode], the tokenizer chosen at construction. *)
Variable encode : str -> list N.

Definition _count_tokens (text : str) : Z := Z.of_nat (length (encode text)).

Definition _count_message_tokens (message : Message) : Z :=
  _count_tokens (role_str (role message))
  + _count_tokens (content message)
  + 4.

Definition total_cost (ms : list Message) : Z :=
  fold_right Z.add 0 (map _count_message_tokens ms).

(** The loop of [get_context] over [reversed(other_messages)], with
    its [break]. *)
Fixpoint take_recent (max_tokens : Z) (pending : list Message)
  (total_tokens : Z) (result_messages : list Message) : list Message :=
  match pending with
  | [] => result_messages
  | message :: rest =>
      let message_tokens := _count_message_tokens message in
      if total_tokens + message_tokens <=? max_tokens
      then take_recent max_tokens rest (total_tokens + message_tokens)
             (result_messages ++ [message])
      else result_messages
  end.

(** [get_context]: the list returned, and [self] after the call. *)
Definition get_context (max_tokens : Z) (self : t) : list Message * t :=
  match messages self with
  | [] => ([], self)
  | _ =>
      let system_messages := List.filter is_system (messages self) in
      let other_messages := List.filter non_system (messages self) in
      let total_tokens := total_cost system_messages in
      let result_messages :=
        take_recent max_tokens (rev other_messages) total_tokens
          system_messages in
      (sort_messages result_messages, self)
  end.

(** [get_total_tokens]. *)
Definition get_total_tokens (self : t) : Z := total_cost (messages self).

End WithEncoder.

(** [summarize_old_context].  [summarizer_func] is the caller's function
    from the non-system messages to the summary text; [now] is the clock
    reading taken by the constructor of the summary message. *)
Definition summarize_old_context (summarizer_func : list Message -> str)
  (now : Z) (self : t) : result str * t :=
  if (length (messages self) <? 2)%nat
  then (Err (ValueError NotEnoughMessages), self)
  else
    let messages_to_summarize := List.filter non_system (messages self) in
    match messages_to_summarize with
    | [] => (Err (ValueError NothingToSummarize), self)
    | _ =>
        let summary := summarizer_func messages_to_summarize in
        match MessageModel.new system (summary_prefix ++ summary) None now with
        | Err e => (Err e, self)
        | Ok summary_message =>
            let system_messages := List.filter is_system (messages self) in
            (Ok summary, set_messages self (system_messages ++ [summary_message]))
        end
    end.

(** [clear] and [get_message_count]. *)
Definition clear (self : t) : t := set_messages self [].
Definition get_message_count (self : t) : nat := length (messages self).

(** ** Persistence *)

Section Persistence.

(** [datetime.isoformat] of the standard library. *)
Variable isoformat : Z -> str.

Definition metadata_to_json (md : option (gmap str str)) : json :=
  match md with
  | None => JNull
  | Some d => JObj (JStr <$> d)
  end.

Definition message_to_json (msg : Message) : json :=
  JObj (<[of_ascii "role" := JStr (role_str (role msg))]>
       (<[of_ascii "content" := JStr (content msg)]>
       (<[of_ascii "timestamp" := JStr (isoformat (timestamp msg))]>
       (<[of_ascii "metadata" := metadata_to_json (metadata msg)]> ∅)))).

(** The [data] dictionary of [save_to_file]. *)
Definition to_document (self : t) : json :=
  JObj (<[of_ascii "model_name" := JStr (model_name self)]>
       (<[of_ascii "max_messages" := JInt (max_messages self)]>
       (<[of_ascii "messages" := JArr (map message_to_json (messages self))]>
        ∅))).

(** [save_to_file]. *)
Definition save_to_file (filepath : str) (self : t) (fs : filesystem)
  : result unit * t * filesystem :=
  (Ok tt, self, <[filepath := Some (to_document self)]> fs).

Definition json_str (j : json) : option str :=
  match j with JStr s => Some s | _ => None end.

(** pydantic's validation of [metadata: dict[str, str] | None]. *)
Definition metadata_of_json (j : json) : result (option (gmap str str)) :=
  match j with
  | JNull => Ok None
  | JObj d =>
      if bool_decide (map_Forall (fun _ v => is_Some (json_str v)) d)
      then Ok (Some (omap json_str d))
      else Err (ValidationError (InvalidField (of_ascii "metadata")))
  | _ => Err (ValidationError (InvalidField (of_ascii "metadata")))
  end.

(** pydantic's validation of [role: Literal["user", "assistant", "system"]]
    and of [content: str]. *)
Definition role_of_json (j : json) : result Role :=
  match j with
  | JStr s =>
      match role_of_str s with
      | Some r => Ok r
      | None => Err (ValidationError (InvalidField (of_ascii "role")))
      end
  | _ => Err (ValidationError (InvalidField (of_ascii "role")))
  end.

Definition content_of_json (j : json) : result str :=
  match j with
  | JStr s => Ok s
  | _ => Err (ValidationError (InvalidField (of_ascii "content")))
  end.

(** [Message(role=msg["role"], content=msg["content"],
    metadata=msg.get("metadata"))] for one element of [data["messages"]].
    The ["timestamp"] entry of [msg] is not read: the new message takes
    the clock reading [now].  pydantic reports every invalid field in one
    [ValidationError]; the model names the first one. *)
Definition message_of_json (now : Z) (msg : json) : result Message :=
  match msg with
  | JObj d =>
      match d !! of_ascii "role" with
      | None => Err (KeyError (of_ascii "role"))
      | Some r =>
          match d !! of_ascii "content" with
          | None => Err (KeyError (of_ascii "content"))
          | Some c =>
              let md := default JNull (d !! of_ascii "metadata") in
              perform r' <- role_of_json r;
              perform c' <- content_of_json c;
              perform md' <- metadata_of_json md;
              MessageModel.new r' c' md' now
          end
      end
  | _ => Err (Raised (of_ascii "TypeError") [])
  end.

(** The list comprehension of [load_from_file]; the [k]-th message built
    reads the clock as [now k]. *)
Fixpoint messages_of_items (now : nat -> Z) (k : nat) (items : list json)
  : result (list Message) :=
  match items with
  | [] => Ok []
  | msg :: rest =>
      perform m <- message_of_json (now k) msg;
      perform ms <- messages_of_items now (S k) rest;
      Ok (m :: ms)
  end.

(** Iterating [data["messages"]]: a list gives its items; an empty [dict]
    or [str] gives nothing; any other value fails in the loop. *)
Definition messages_of_json (now : nat -> Z) (j : json) : result (list Message) :=
  match j with
  | JArr items => messages_of_items now 0 items
  | JStr [] => Ok []
  | JObj d =>
      if bool_decide (d = ∅) then Ok []
      else Err (Raised (of_ascii "TypeError") [])
  | _ => Err (Raised (of_ascii "TypeError") [])
  end.

(** [data.get("model_name", self.model_name)] and
    [data.get("max_messages", self.max_messages)].  Python stores whatever
    JSON value it finds; the attributes of this model are typed, so a
    document with a value of another type is outside the model ([None]). *)
Definition get_str_or (d : gmap str json) (key : str) (dflt : str) : option str :=
  match d !! key with
  | None => Some dflt
  | Some (JStr s) => Some s
  | Some _ => None
  end.

Definition get_int_or (d : gmap str json) (key : str) (dflt : Z) : option Z :=
  match d !! key with
  | None => Some dflt
  | Some (JInt z) => Some z
  | Some _ => None
  end.

(** [load_from_file].  The attributes [model_name] and [max_messages] are
    assigned before the messages are built, so they stay assigned when
    building fails.  [KeyError] and [json.JSONDecodeError] are turned into
    [ValueError]; every other exception propagates.  [None]: the document
    is outside the typed model (see [get_str_or]). *)
Definition load_from_file (now : nat -> Z) (filepath : str) (self : t)
  (fs : filesystem) : option (result unit * t) :=
  match fs !! filepath with
  | None => Some (Err (FileNotFoundError (FileMissing filepath)), self)
  | Some None => Some (Err (ValueError BadFileFormat), self)
  | Some (Some (JObj d)) =>
      match get_str_or d (of_ascii "model_name") (model_name self),
            get_int_or d (of_ascii "max_messages") (max_messages self) with
      | Some name', Some max' =>
          let self1 := mk (messages self) max' name' in
          match d !! of_ascii "messages" with
          | None => Some (Err (ValueError BadFileFormat), self1)
          | Some items =>
              match messages_of_json now items with
              | Ok ms => Some (Ok tt, set_messages self1 ms)
              | Err (KeyError _) => Some (Err (ValueError BadFileFormat), self1)
              | Err e => Some (Err e, self1)
              end
          end
      | _, _ => None
      end
  | Some (Some _) => Some (Err (Raised (of_ascii "AttributeError") []), self)
  end.

End Persistence.

(** Vocabulary for the round trip.  A message is valid when its content
    is what the validator returns for it, as for every message the
    constructor built.  [restamp now k ms] is [ms] with the timestamp of
    its [i]-th message replaced by the clock reading [now (k + i)]. *)
Definition valid_message (m : Message) : Prop :=
  MessageModel.validate_content (content m) = Ok (content m).

Fixpoint restamp (now : nat -> Z) (k : nat) (ms : list Message) : list Message :=
  match ms with
  | [] => []
  | m :: ms' =>
      mkMessage (role m) (content m) (now k) (metadata m) :: restamp now (S k) ms'
  end.

(** Whole seconds of a timestamp in microseconds. *)
Definition seconds (ts : Z) : Z := ts / 1000000.

End ContextManager.


(* ===================================================================== *)
(** * state_manager.py *)
(* ===================================================================== *)

Module AgentState.

Record t : Type := mk {
  session_id : str;
  user_id : option str;
  conversation : Conversation;
  user_preferences : gmap str json;
  plugin_data : gmap str json;
  created_at : Z;
  updated_at : Z;
  expires_at : option Z
}.

(** [is_expired]; [now] is the value of [datetime.now()]. *)
Definition is_expired (now : Z) (self : t) : bool :=
  match expires_at self with
  | None => false
  | Some e => now >? e
  end.

End AgentState.

Module JSONStorage.

(** The content of [storage_dir]: file stem to file content. *)
Record t : Type := mk { files : filesystem }.

(** [_get_file_path]: the stem of the file, [safe_key]. *)
Definition _get_file_path (key : str) : str :=
  replace_char 0x5C 0x5F (replace_char 0x2F 0x5F key).

Definition save (key : str) (value : json) (self : t) : result unit * t :=
  (Ok tt, mk (<[_get_file_path key := Some value]> (files self))).

Definition load (key : str) (self : t) : result json :=
  match files self !! _get_file_path key with
  | None => Err (NotFoundError (KeyMissing key))
  | Some None => Err (StorageError (KeyMissing key))
  | Some (Some value) => Ok value
  end.

Definition delete (key : str) (self : t) : result unit * t :=
  match files self !! _get_file_path key with
  | None => (Err (NotFoundError (KeyMissing key)), self)
  | Some _ => (Ok tt, mk (base.delete (_get_file_path key) (files self)))
  end.

Definition exists_ (key : str) (self : t) : bool :=
  bool_decide (is_Some (files self !! _get_file_path key)).

(** A string without slash and backslash. *)
Definition separator_free (s : str) : Prop :=
  Forall (fun c => c <> 0x2F%N /\ c <> 0x5C%N) s.

End JSONStorage.

Module StateManager.

Record t : Type := mk {
  storage : JSONStorage.t;
  sessions : gmap str AgentState.t;
  auto_save_enabled : bool;
  auto_save_interval : Z;
  default_ttl_hours : Z
}.

Definition set_sessions (self : t) (ss : gmap str AgentState.t) : t :=
  mk (storage self) ss (auto_save_enabled self) (auto_save_interval self)
     (default_ttl_hours self).

Definition set_storage (self : t) (st : JSONStorage.t) : t :=
  mk st (sessions self) (auto_save_enabled self) (auto_save_interval self)
     (default_ttl_hours self).

(** [delete_session].  The membership test of the handler reads
    [self.sessions] as it is at that point, after the [del]. *)
Definition delete_session (session_id : str) (self : t) : result unit * t :=
  let self1 :=
    if bool_decide (is_Some (sessions self !! session_id))
    then set_sessions self (base.delete session_id (sessions self))
    else self in
  match JSONStorage.delete session_id (storage self1) with
  | (Ok _, storage') => (Ok tt, set_storage self1 storage')
  | (Err (NotFoundError _), storage') =>
      if bool_decide (sessions self1 !! session_id = None)
      then (Err (NotFoundError (SessionNotFound session_id)),
            set_storage self1 storage')
      else (Ok tt, set_storage self1 storage')
  | (Err e, storage') => (Err e, set_storage self1 storage')
  end.

Section WithFromDict.

(** [AgentState.from_dict]: pydantic's construction of a state from a
    stored document ([datetime.fromisoformat], [UUID], field validation). *)
Variable from_dict : json -> result AgentState.t.

(** The handler [except NotFoundError] of [get_session]. *)
Definition on_not_found (session_id : str) (e : exn) : exn :=
  if is_not_found e then NotFoundError (SessionNotFound session_id) else e.

(** [get_session]; [now] is the clock reading of [is_expired]. *)
Definition get_session (session_id : str) (now : Z) (self : t)
  : result AgentState.t * t :=
  match sessions self !! session_id with
  | Some state =>
      if AgentState.is_expired now state then
        match delete_session session_id self with
        | (Ok _, self') => (Err (NotFoundError (SessionExpired session_id)), self')
        | (Err e, self') => (Err e, self')
        end
      else (Ok state, self)
  | None =>
      match JSONStorage.load session_id (storage self) with
      | Err e => (Err (on_not_found session_id e), self)
      | Ok data =>
          match from_dict data with
          | Err e => (Err (on_not_found session_id e), self)
          | Ok state =>
              if AgentState.is_expired now state then
                match delete_session session_id self with
                | (Ok _, self') =>
                    (Err (on_not_found session_id
                            (NotFoundError (SessionExpired session_id))), self')
                | (Err e, self') => (Err (on_not_found session_id e), self')
                end
              else (Ok state,
                    set_sessions self (<[session_id := state]> (sessions self)))
          end
      end
  end.

End WithFromDict.

Section WithToDict.

(** [AgentState.to_dict]: pydantic's [model_dump] with the dates and the
    UUID turned into text. *)
Variable to_dict : AgentState.t -> json.





(** The loop of [_auto_save] over [self.sessions.items()]. *)
Definition save_all (self : t) : t :=
  foldl (fun w '(session_id, state) =>
           set_storage w (snd (JSONStorage.save session_id (to_dict state) (storage w))))
        self (map_to_list (sessions self)).


End WithToDict.



(** The first loop of [cleanup_expired_sessions]: the ids of the cached
    sessions that are expired.  [now id] is the clock reading when the
    session [id] is examined. *)
Definition expired_sessions (now : str -> Z) (self : t) : list str :=
  (List.filter (fun '(session_id, state) =>
                  AgentState.is_expired (now session_id) state)
     (map_to_list (sessions self))).*1.

(** Its second loop: each deletion in a [try] whose handler only logs. *)
Definition delete_all (ids : list str) (self : t) : t :=
  foldl (fun w session_id => snd (delete_session session_id w)) self ids.

(** [cleanup_expired_sessions]. *)
Definition cleanup_expired_sessions (now : str -> Z) (self : t) : nat * t :=
  let expired := expired_sessions now self in
  (length expired, delete_all expired self).

(** [_auto_save] and [stop]. *)
Definition _auto_save (to_dict : AgentState.t -> json) (now : str -> Z)
  (self : t) : t :=
  snd (cleanup_expired_sessions now (save_all to_dict self)).

Definition stop (to_dict : AgentState.t -> json) (now : str -> Z) (self : t) : t :=
  _auto_save to_dict now
    (mk (storage self) (sessions self) false (auto_save_interval self)
        (default_ttl_hours self)).

End StateManager.

(* ===================================================================== *)
(** * plugins/base.py *)
(* ===================================================================== *)

Module BasePlugin.

(** A plug-in object, by what its members do when used.  The properties
    [name], [description] and [version] are getters written by the
    plug-in's author: each returns a string or raises.  [get_schema]
    returns a [dict] ([Some d]), a value that is not a [dict] ([None]), or
    raises.  [enabled] is the attribute set by [BasePlugin.__init__] and
    by [enable_plugin] / [disable_plugin]. *)
Record t : Type := mk {
  name : result str;
  description : result str;
  version : result str;
  enabled : bool;
  initialize : result unit;
  execute : gmap str json -> result (gmap str json);
  cleanup : result unit;
  get_schema : result (option (gmap str json))
}.

Definition set_enabled (p : t) (b : bool) : t :=
  mk (name p) (description p) (version p) b (initialize p) (execute p)
     (cleanup p) (get_schema p).

End BasePlugin.

Module PluginManager.

(** A call of [initialize], [execute] or [cleanup] made by the manager. *)
Inductive call : Type :=
| CallInitialize (p : BasePlugin.t)
| CallExecute (p : BasePlugin.t) (context : gmap str json)
| CallCleanup (p : BasePlugin.t).

(** [self.plugins], and the calls made so far.  The log is not a field of
    the Python object: it records which of these methods have run, in
    order. *)
Record t : Type := mk {
  plugins : gmap str BasePlugin.t;
  calls : list call
}.

Definition init : t := mk ∅ [].

Definition set_plugins (self : t) (ps : gmap str BasePlugin.t) : t :=
  mk ps (calls self).

Definition record_call (self : t) (c : call) : t :=
  mk (plugins self) (calls self ++ [c]).

(** [_validate_plugin].  Every value of [BasePlugin.t] is an instance of
    [BasePlugin], so the [isinstance] test passes. *)
Definition _validate_plugin (plugin : BasePlugin.t) : result unit :=
  let attributes :=
    perform _n <- BasePlugin.name plugin;
    perform _d <- BasePlugin.description plugin;
    perform _v <- BasePlugin.version plugin;
    Ok tt in
  match attributes with
  | Err e => Err (PluginError MissingAttribute (Some e))
  | Ok _ =>
      let checked :=
        perform schema <- BasePlugin.get_schema plugin;
        match schema with
        | Some d =>
            if bool_decide (is_Some (d !! of_ascii "name")) then Ok tt
            else Err (PluginError InvalidSchema None)
        | None => Err (PluginError InvalidSchema None)
        end in
      match checked with
      | Err e => Err (PluginError SchemaCheckFailed (Some e))
      | Ok _ => Ok tt
      end
  end.

(** The [try] block of [register_plugin]. *)
Definition register_body (plugin : BasePlugin.t) (self : t) : result unit * t :=
  match _validate_plugin plugin with
  | Err e => (Err e, self)
  | Ok _ =>
      match BasePlugin.name plugin with
      | Err e => (Err e, self)
      | Ok n =>
          let self1 := record_call self (CallInitialize plugin) in
          match BasePlugin.initialize plugin with
          | Err e => (Err e, self1)
          | Ok _ =>
              let self2 := set_plugins self1 (<[n := plugin]> (plugins self1)) in
              match BasePlugin.version plugin with
              | Err e => (Err e, self2)
              | Ok _ => (Ok tt, self2)
              end
          end
      end
  end.

(** [register_plugin]: the handler formats [plugin.name] into the log
    line before it raises, so a getter that raises there replaces the
    [PluginError]. *)
Definition register_plugin (plugin : BasePlugin.t) (self : t) : result unit * t :=
  match register_body plugin self with
  | (Ok _, self') => (Ok tt, self')
  | (Err e, self') =>
      match BasePlugin.name plugin with
      | Err e' => (Err e', self')
      | Ok _ => (Err (PluginError RegistrationFailed (Some e)), self')
      end
  end.

(** [get_plugin]. *)
Definition get_plugin (name : str) (self : t) : result BasePlugin.t :=
  match plugins self !! name with
  | None => Err (PluginError (PluginNotFound name) None)
  | Some plugin => Ok plugin
  end.

(** [enable_plugin] and [disable_plugin] assign [plugin.enabled] of the
    registered object. *)
Definition enable_plugin (name : str) (self : t) : result unit * t :=
  match get_plugin name self with
  | Err e => (Err e, self)
  | Ok plugin =>
      (Ok tt, set_plugins self (<[name := BasePlugin.set_enabled plugin true]> (plugins self)))
  end.

Definition disable_plugin (name : str) (self : t) : result unit * t :=
  match get_plugin name self with
  | Err e => (Err e, self)
  | Ok plugin =>
      (Ok tt, set_plugins self (<[name := BasePlugin.set_enabled plugin false]> (plugins self)))
  end.

(** [execute_plugin]. *)
Definition execute_plugin (name : str) (context : gmap str json) (self : t)
  : result (gmap str json) * t :=
  match plugins self !! name with
  | None => (Err (PluginError (PluginNotFound name) None), self)
  | Some plugin =>
      if negb (BasePlugin.enabled plugin)
      then (Err (PluginError (PluginDisabled name) None), self)
      else
        let self1 := record_call self (CallExecute plugin context) in
        match BasePlugin.execute plugin context with
        | Ok res => (Ok res, self1)
        | Err e => (Err (PluginExecutionError ExecutionFailed e), self1)
        end
  end.

(** [unregister_plugin]. *)
Definition unregister_plugin (name : str) (self : t) : result unit * t :=
  match plugins self !! name with
  | None => (Err (PluginError (PluginNotFound name) None), self)
  | Some plugin =>
      let self1 := record_call self (CallCleanup plugin) in
      match BasePlugin.cleanup plugin with
      | Err e => (Err (PluginError UnregistrationFailed (Some e)), self1)
      | Ok _ => (Ok tt, set_plugins self1 (base.delete name (plugins self1)))
      end
  end.

(** [get_enabled_plugins] and [get_schemas]; [get_schemas] skips a
    plug-in whose [get_schema] raises.  The plug-ins come in the order of
    the map here, in the order of insertion in Python. *)
Definition get_enabled_plugins (self : t) : list BasePlugin.t :=
  List.filter BasePlugin.enabled (map_to_list (plugins self)).*2.

Definition schema_of (p : BasePlugin.t) : option (option (gmap str json)) :=
  match BasePlugin.get_schema p with
  | Ok schema => Some schema
  | Err _ => None
  end.

Definition get_schemas (self : t) : list (option (gmap str json)) :=
  omap schema_of (get_enabled_plugins self).

(** Vocabulary for sequences of calls on one manager: a call of a public
    method, the manager after it whatever it returned or raised, and the
    manager after a list of calls. *)
Inductive op : Type :=
| Register (p : BasePlugin.t)
| Unregister (name : str)
| Enable (name : str)
| Disable (name : str)
| Execute (name : str) (context : gmap str json).

Definition step (o : op) (self : t) : t :=
  match o with
  | Register p => snd (register_plugin p self)
  | Unregister name => snd (unregister_plugin name self)
  | Enable name => snd (enable_plugin name self)
  | Disable name => snd (disable_plugin name self)
  | Execute name context => snd (execute_plugin name context self)
  end.

Definition run (ops : list op) (self : t) : t :=
  foldl (fun w o => step o w) self ops.

(** A registry is well keyed when every entry is stored under the name
    its plug-in reports and its plug-in passes [_validate_plugin]. *)
Definition well_keyed (self : t) : Prop :=
  forall name p, plugins self !! name = Some p ->
    BasePlugin.name p = Ok name /\ _validate_plugin p = Ok tt.

(** What a refused registration looks like: the "registration failed"
    error around a cause, and the manager as it was. *)
Definition registration_rejected (r : result unit * t) (self : t) : Prop :=
  (exists cause, fst r = Err (PluginError RegistrationFailed (Some cause)))
  /\ snd r = self.

End PluginManager.

(* ===================================================================== *)
(** * utils/validators.py *)
(* ===================================================================== *)

(** A validator returns [True] or raises [ValueError]. *)
Inductive verdict (E : Type) : Type :=
| Valid
| Invalid (why : E).
Arguments Valid {E}.
Arguments Invalid {E} why.

Definition len (s : str) : Z := Z.of_nat (length s).

(** [not s or not s.strip()]. *)
Definition is_blank (s : str) : bool :=
  match s with
  | [] => true
  | _ => match strip s with [] => true | _ => false end
  end.

Module Validators.

Definition MESSAGE_DEFAULT_MAX_LENGTH : Z := 4000.
Definition MESSAGE_MIN_LENGTH : Z := 1.

(** The four messages of [validate_message]. *)
Inductive message_error : Type :=
| MessageEmpty
| MessageNoCharacter
| MessageTooLong (max_length got : Z)
| MaxLengthTooSmall (max_length : Z).

(** [validate_message]. *)
Definition validate_message (message : str) (max_length : Z)
  : verdict message_error :=
  if is_blank message then Invalid MessageEmpty
  else
    let stripped_message := strip message in
    if len stripped_message <? MESSAGE_MIN_LENGTH then Invalid MessageNoCharacter
    else if len message >? max_length
    then Invalid (MessageTooLong max_length (len message))
    else if max_length <? MESSAGE_MIN_LENGTH
    then Invalid (MaxLengthTooSmall max_length)
    else Valid.

(** [is_valid_message]. *)
Definition is_valid_message (message : str) (max_length : Z) : bool :=
  match validate_message message max_length with
  | Valid => true
  | Invalid _ => false
  end.

End Validators.

(* ===================================================================== *)
(** * message_processor.py *)
(* ===================================================================== *)

Module MessageProcessor.

Record t : Type := mk {
  max_length : Z;
  min_length : Z;
  forbidden_words : list str
}.

(** [re.sub(r"\s+", " ", s)]: every maximal run of white space becomes
    one space.  [in_run] tells that the previous character was white
    space.  The class [\s] of a [str] pattern is [str.isspace]. *)
Fixpoint collapse (in_run : bool) (s : str) : str :=
  match s with
  | [] => []
  | c :: s' =>
      if isspace c
      then (if in_run then collapse true s' else 0x20%N :: collapse true s')
      else c :: collapse false s'
  end.

(** [s.replace(old, new)] for a one-character [old]. *)
Definition replace_by (old : N) (new : str) (s : str) : str :=
  flat_map (fun c => if (c =? old)%N then new else [c]) s.

(** [html.escape(s)], with [quote=True]: the five replacements of the
    standard library, the ampersand first. *)
Definition html_escape (s : str) : str :=
  let s := replace_by 0x26 (of_ascii "&amp;") s in
  let s := replace_by 0x3C (of_ascii "&lt;") s in
  let s := replace_by 0x3E (of_ascii "&gt;") s in
  let s := replace_by 0x22 (of_ascii "&quot;") s in
  replace_by 0x27 (of_ascii "&#x27;") s.

(** [preprocess]. *)
Definition preprocess (message : str) (self : t) : str :=
  let processed := strip message in
  let processed := collapse false processed in
  let processed := html_escape processed in
  if len processed >? max_length self
  then slice_to (max_length self) processed
  else processed.

(** A character that is not one of [<], [>], the double and the single
    quote; and a character that, if white space, is the plain space. *)
Definition not_markup (c : N) : Prop :=
  c <> 0x3C%N /\ c <> 0x3E%N /\ c <> 0x22%N /\ c <> 0x27%N.

Definition plain_space (c : N) : Prop := isspace c = true -> c = 0x20%N.

(** The four messages of [validate]. *)
Inductive error : Type :=
| Empty
| TooShort (min_length got : Z)
| TooLong (max_length got : Z)
| Forbidden (word : str).

Section WithLower.

(** [str.lower] of the standard library. *)
Variable lower : str -> str.

(** The loop of [validate] over [self.forbidden_words]. *)
Fixpoint first_forbidden (message_lower : str) (words : list str) : option str :=
  match words with
  | [] => None
  | word :: rest =>
      if contains message_lower (lower word) then Some word
      else first_forbidden message_lower rest
  end.

(** [validate]. *)
Definition validate (message : str) (self : t) : verdict error :=
  if is_blank message then Invalid Empty
  else if len message <? min_length self
  then Invalid (TooShort (min_length self) (len message))
  else if len message >? max_length self
  then Invalid (TooLong (max_length self) (len message))
  else
    match first_forbidden (lower message) (forbidden_words self) with
    | Some word => Invalid (Forbidden word)
    | None => Valid
    end.

End WithLower.

End MessageProcessor.

(* ===================================================================== *)
(** * response_generator.py *)
(* ===================================================================== *)

Module ResponseGenerator.

(** What [_retry_with_backoff] does besides returning: a call of [func],
    or a sleep of some seconds. *)
Inductive event : Type :=
| Called (attempt : nat)
| Slept (seconds : Z).

(** It returns what [func] returned, or raises [ResponseGenerationError]
    from the last exception ([None] when [func] was never called). *)
Inductive outcome (A : Type) : Type :=
| Returned (a : A)
| GaveUp (last_exception : option exn).
Arguments Returned {A} a.
Arguments GaveUp {A} last_exception.

(** The loop [for attempt in range(max_retries)]; [func attempt] is what
    the call made at that attempt does, [remaining] the iterations left. *)
Fixpoint retry_loop {A : Type} (func : nat -> result A) (max_retries : Z)
  (attempt remaining : nat) (last_exception : option exn) (log : list event)
  : outcome A * list event :=
  match remaining with
  | O => (GaveUp last_exception, log)
  | S remaining' =>
      match func attempt with
      | Ok a => (Returned a, log ++ [Called attempt])
      | Err e =>
          if Z.of_nat attempt <? max_retries - 1
          then retry_loop func max_retries (S attempt) remaining' (Some e)
                 (log ++ [Called attempt; Slept (2 ^ Z.of_nat attempt)])
          else retry_loop func max_retries (S attempt) remaining' (Some e)
                 (log ++ [Called attempt])
      end
  end.

(** [_retry_with_backoff], with [self.config.max_retries]. *)
Definition _retry_with_backoff {A : Type} (func : nat -> result A)
  (max_retries : Z) : outcome A * list event :=
  retry_loop func max_retries 0 (Z.to_nat max_retries) None [].

(** The call made at attempt [k] raises. *)
Definition fails {A : Type} (func : nat -> result A) (k : nat) : Prop :=
  exists e, func k = Err e.

(** The seconds slept, and the calls made, in a log. *)
Definition slept (log : list event) : Z :=
  fold_right (fun e acc => match e with Slept n => n + acc | Called _ => acc end)
    0 log.

Definition calls_made (log : list event) : nat :=
  length (List.filter (fun e => match e with Called _ => true | Slept _ => false end)
            log).

End ResponseGenerator.

(* ===================================================================== *)
(** * Example data *)
(* ===================================================================== *)

Module Examples.

(** A tokenizer for the examples: one token per code point. *)
Definition char_encode (s : str) : list N := s.

Definition hello : Message := mkMessage user (of_ascii "hello") 1000000 None.
Definition rules : Message := mkMessage system (of_ascii "be kind") 3000000 None.
Definition reply : Message := mkMessage assistant (of_ascii "hi there") 2000000 None.
Definition rules2 : Message := mkMessage system (of_ascii "be brief") 500000 None.

Definition window : ContextManager.t :=
  ContextManager.mk [hello; rules; reply] 10 (of_ascii "gpt-4").

(** A window in the order of its timestamps, and a window whose two
    non-system turns carry one timestamp. *)
Definition chronological : ContextManager.t :=
  ContextManager.mk [rules2; hello; reply] 10 (of_ascii "gpt-4").

Definition first_tie : Message := mkMessage user (of_ascii "one") 7000000 None.
Definition second_tie : Message := mkMessage assistant (of_ascii "two") 7000000 None.

Definition tied : ContextManager.t :=
  ContextManager.mk [first_tie; second_tie] 10 (of_ascii "gpt-4").

(** A file system whose saved document has no ["messages"] entry. *)
Definition headless : gmap str json :=
  <[of_ascii "model_name" := JStr (of_ascii "gpt-3.5")]>
    (<[of_ascii "max_messages" := JInt 3]> ∅).

Definition headless_disk : filesystem :=
  {[ of_ascii "conversation.json" := Some (JObj headless) ]}.

(** A clock that reads nine seconds, and the path of a saved window. *)
Definition later (k : nat) : Z := 9000000.
Definition saved_path : str := of_ascii "conversation.json".

(** A session that expires at [expires], held by a manager in memory
    only (its file is not in the storage directory), and by a manager
    both in memory and on disk. *)
Definition session_id : str := of_ascii "s1".

Definition session (expires : option Z) : AgentState.t :=
  AgentState.mk session_id (Some (of_ascii "u1"))
    (mkConversation (of_ascii "c1") [] 0 0) ∅ ∅ 0 0 expires.

Definition memory_only : StateManager.t :=
  StateManager.mk (JSONStorage.mk ∅) {[ session_id := session (Some 100) ]}
    true 300 24.

Definition stored : StateManager.t :=
  StateManager.mk (JSONStorage.mk {[ session_id := Some JNull ]})
    {[ session_id := session (Some 100) ]} true 300 24.

(** A manager that holds the session on disk only, as the document
    [session_document]. *)
Definition session_document : json :=
  JObj {[ of_ascii "session_id" := JStr session_id ]}.

Definition disk_only : StateManager.t :=
  StateManager.mk (JSONStorage.mk {[ session_id := Some session_document ]})
    ∅ true 300 24.

(** A deserialiser for the examples: it reads [session_document] as the
    session that expires at 100, and refuses every other document. *)
Definition read_state (data : json) : result AgentState.t :=
  match data with
  | JObj d =>
      match d !! of_ascii "session_id" with
      | Some (JStr s) =>
          if bool_decide (s = session_id) then Ok (session (Some 100))
          else Err (ValidationError (InvalidField (of_ascii "session_id")))
      | _ => Err (ValidationError (InvalidField (of_ascii "session_id")))
      end
  | _ => Err (ValidationError (InvalidField (of_ascii "session_id")))
  end.

(** A calculator plug-in, and a plug-in whose name, description and
    version are empty strings. *)
Definition calc : BasePlugin.t :=
  BasePlugin.mk (Ok (of_ascii "calc")) (Ok (of_ascii "Evaluates an expression"))
    (Ok (of_ascii "1.0.0")) true (Ok tt)
    (fun _ => Ok {[ of_ascii "result" := JInt 5 ]}) (Ok tt)
    (Ok (Some {[ of_ascii "name" := JStr (of_ascii "calc") ]})).

Definition blank : BasePlugin.t :=
  BasePlugin.mk (Ok []) (Ok []) (Ok []) true (Ok tt)
    (fun _ => Ok ∅) (Ok tt)
    (Ok (Some {[ of_ascii "name" := JStr [] ]})).

Definition registry : PluginManager.t :=
  snd (PluginManager.register_plugin calc PluginManager.init).

(** A message processor that keeps ten characters. *)
Definition processor : MessageProcessor.t := MessageProcessor.mk 10 1 [].

(** A lower-casing for the examples: of the ASCII letters only. *)
Definition ascii_lower (s : str) : str :=
  map (fun c => if ((0x41 <=? c) && (c <=? 0x5A))%N then (c + 0x20)%N else c) s.

Definition expression : gmap str json :=
  {[ of_ascii "expression" := JStr (of_ascii "2+3") ]}.

End Examples.

(* ===================================================================== *)
(** * Properties of the context window *)
(* ===================================================================== *)

Section WindowFacts.

Import ContextManager.

Lemma count_non_system_app l1 l2 :
  count_non_system (l1 ++ l2) = count_non_system l1 + count_non_system l2.
Proof.
  unfold count_non_system. rewrite List.filter_app, length_app. lia.
Qed.

Lemma count_non_system_nonneg l : 0 <= count_non_system l.
Proof. unfold count_non_system. lia. Qed.

(** What the eviction loop removes: the first non-system message. *)
Lemma pop_first_non_system_split l :
  0 < count_non_system l ->
  exists pre x post,
    l = pre ++ x :: post
    /\ Forall (fun m => is_system m = true) pre
    /\ non_system x = true
    /\ pop_first_non_system l = pre ++ post.
Proof.
  induction l as [|m l IH]; intros Hc.
  - unfold count_non_system in Hc. simpl in Hc. lia.
  - simpl. destruct (is_system m) eqn:Hm.
    + assert (Hl : 0 < count_non_system l).
      { unfold count_non_system in *. simpl in Hc.
        unfold non_system in Hc at 1. rewrite Hm in Hc. exact Hc. }
      destruct (IH Hl) as (pre & x & post & -> & Hpre & Hx & Hpop).
      exists (m :: pre), x, post. repeat split; auto.
      now rewrite Hpop.
    + exists [], m, l. repeat split; auto.
      unfold non_system. now rewrite Hm.
Qed.

Lemma pop_first_non_system_count l :
  0 < count_non_system l ->
  count_non_system (pop_first_non_system l) = count_non_system l - 1.
Proof.
  intros Hc.
  destruct (pop_first_non_system_split l Hc) as (pre & x & post & -> & _ & Hx & ->).
  rewrite !count_non_system_app.
  change (x :: post) with ([x] ++ post). rewrite count_non_system_app.
  assert (Hx1 : count_non_system [x] = 1).
  { unfold count_non_system. simpl. now rewrite Hx. }
  lia.
Qed.

Lemma pop_first_non_system_keeps_system l :
  List.filter is_system (pop_first_non_system l) = List.filter is_system l.
Proof.
  induction l as [|m l IH]; simpl; auto.
  destruct (is_system m) eqn:Hm; simpl; rewrite ?Hm; congruence.
Qed.

(** One append moves the count of non-system messages to
    [min (count + new, max)]. *)
Lemma add_to_context_count m w :
  0 <= max_messages w ->
  count_non_system (messages w) <= max_messages w ->
  count_non_system (messages (add_to_context m w))
  = Z.min (count_non_system (messages w) + count_non_system [m]) (max_messages w).
Proof.
  intros Hmax Hinv. unfold add_to_context.
  fold (count_non_system (messages w ++ [m])).
  pose proof (count_non_system_nonneg [m]) as H0.
  assert (H1 : count_non_system [m] <= 1).
  { unfold count_non_system. simpl. destruct (non_system m); simpl; lia. }
  destruct (Z.gtb_spec (count_non_system (messages w ++ [m])) (max_messages w)) as [Hgt|Hle];
    simpl; rewrite count_non_system_app in *.
  - rewrite pop_first_non_system_count; rewrite count_non_system_app; lia.
  - lia.
Qed.

Lemma add_to_context_max m w : max_messages (add_to_context m w) = max_messages w.
Proof. unfold add_to_context. now destruct (_ >? _). Qed.

Lemma add_to_context_model m w : model_name (add_to_context m w) = model_name w.
Proof. unfold add_to_context. now destruct (_ >? _). Qed.

Lemma add_all_max ms w : max_messages (add_all ms w) = max_messages w.
Proof.
  revert w. induction ms as [|m ms IH]; intros w; simpl; auto.
  unfold add_all in *. simpl. rewrite IH. apply add_to_context_max.
Qed.

Lemma add_all_count ms : forall w,
  0 <= max_messages w ->
  count_non_system (messages w) <= max_messages w ->
  count_non_system (messages (add_all ms w))
  = Z.min (count_non_system (messages w) + count_non_system ms) (max_messages w).
Proof.
  induction ms as [|m ms IH]; intros w Hmax Hinv.
  - simpl. unfold count_non_system at 3. simpl. lia.
  - change (add_all (m :: ms) w) with (add_all ms (add_to_context m w)).
    pose proof (add_to_context_count m w Hmax Hinv) as Hstep.
    rewrite IH; rewrite ?add_to_context_max; try lia.
    rewrite Hstep. change (m :: ms) with ([m] ++ ms).
    rewrite count_non_system_app.
    pose proof (count_non_system_nonneg ms). pose proof (count_non_system_nonneg [m]).
    lia.
Qed.

(** C2. Window-size invariant under append.  From a new window with a
    limit [max >= 0], after each of a sequence of single-turn appends the
    number of non-system turns is the minimum of the number of non-system
    turns appended so far and [max].  An append keeps every system turn;
    it either keeps the whole list (the count is within the limit) or
    removes one turn, the first non-system turn from the front. *)
Theorem add_to_context_window_invariant (max : Z) (model : str) (ms : list Message) :
  0 <= max ->
  forall k : nat,
    let w := add_all (firstn k ms) (init max model) in
    count_non_system (messages w) = Z.min (count_non_system (firstn k ms)) max
    /\ forall m : Message,
         let appended := messages w ++ [m] in
         List.filter is_system (messages (add_to_context m w))
         = List.filter is_system appended
         /\ ((count_non_system appended <= max
              /\ messages (add_to_context m w) = appended)
             \/ (count_non_system appended > max
                 /\ exists pre x post,
                     appended = pre ++ x :: post
                     /\ Forall (fun t => is_system t = true) pre
                     /\ non_system x = true
                     /\ messages (add_to_context m w) = pre ++ post)).
Proof.
  intros Hmax k w.
  assert (Hw : max_messages w = max) by (unfold w; now rewrite add_all_max).
  split.
  - unfold w. rewrite add_all_count; simpl;
      change (count_non_system []) with 0; lia.
  - intros m appended. unfold add_to_context.
    fold appended. fold (count_non_system appended). rewrite Hw.
    destruct (Z.gtb_spec (count_non_system appended) max) as [Hgt|Hle]; simpl.
    + split; [apply pop_first_non_system_keeps_system|].
      right. split; [lia|].
      apply pop_first_non_system_split. lia.
    + split; [reflexivity|]. left. split; [lia|reflexivity].
Qed.

Lemma add_to_context_window_invariant_witness :
  count_non_system
    (messages (add_all (firstn 4 [Examples.hello; Examples.rules; Examples.reply;
                                  Examples.hello; Examples.reply])
                 (init 2 (of_ascii "gpt-4"))))
  = Z.min (count_non_system (firstn 4 [Examples.hello; Examples.rules; Examples.reply;
                                       Examples.hello; Examples.reply])) 2.
Proof.
  exact (proj1 (add_to_context_window_invariant 2 (of_ascii "gpt-4")
                  [Examples.hello; Examples.rules; Examples.reply;
                   Examples.hello; Examples.reply]
                  ltac:(lia) 4%nat)).
Defined.

End WindowFacts.

(* ===================================================================== *)
(** * Retrieval: the sort, the budget, the frame *)
(* ===================================================================== *)

Section SortFacts.

Import ContextManager.

Lemma key_le_total a b : key_le a b = false -> key_le b a = true.
Proof.
  destruct a as [[] ta], b as [[] tb]; unfold key_le; simpl; try congruence;
    rewrite Z.leb_gt, Z.leb_le; lia.
Qed.

Lemma key_le_trans a b c : key_le a b = true -> key_le b c = true -> key_le a c = true.
Proof.
  destruct a as [[] ta], b as [[] tb], c as [[] tc]; unfold key_le; simpl;
    try congruence; rewrite !Z.leb_le; lia.
Qed.

Lemma insert_by_key_perm x l : Permutation (insert_by_key x l) (x :: l).
Proof.
  induction l as [|y l IH]; simpl; auto.
  destruct (key_le _ _); auto.
  rewrite IH. apply perm_swap.
Qed.

Lemma sort_messages_perm l : Permutation (sort_messages l) l.
Proof.
  induction l as [|x l IH]; simpl; auto.
  rewrite insert_by_key_perm. now constructor.
Qed.

Lemma insert_by_key_sorted x l :
  StronglySorted key_ord l -> StronglySorted key_ord (insert_by_key x l).
Proof.
  induction 1 as [|y l Hs IH Hy]; simpl.
  - repeat constructor.
  - destruct (key_le (sort_key x) (sort_key y)) eqn:Hxy.
    + constructor; [now constructor|].
      constructor; [exact Hxy|].
      eapply List.Forall_impl; [|exact Hy].
      intros z Hz. unfold key_ord in *. eapply key_le_trans; eauto.
    + constructor; [exact IH|].
      eapply Permutation_Forall; [symmetry; apply insert_by_key_perm|].
      constructor; [|exact Hy].
      now apply key_le_total.
Qed.

Lemma sort_messages_sorted l : StronglySorted key_ord (sort_messages l).
Proof.
  induction l as [|x l IH]; simpl; [constructor|].
  now apply insert_by_key_sorted.
Qed.

(** The sort is stable: messages with the same key keep their order. *)
Lemma insert_by_key_stable k x l :
  List.filter (fun m => bool_decide (sort_key m = k)) (insert_by_key x l)
  = List.filter (fun m => bool_decide (sort_key m = k)) (x :: l).
Proof.
  induction l as [|y l IH]; [reflexivity|].
  cbn [insert_by_key]. destruct (key_le (sort_key x) (sort_key y)) eqn:Hxy;
    [reflexivity|].
  cbn [List.filter] in *. rewrite IH.
  destruct (bool_decide (sort_key x = k)) eqn:Hx; [|reflexivity].
  destruct (bool_decide (sort_key y = k)) eqn:Hy; [|reflexivity].
  apply bool_decide_eq_true_1 in Hx, Hy. rewrite Hx, <- Hy in Hxy.
  destruct (sort_key y) as [[] ty]; unfold key_le in Hxy; simpl in Hxy;
    apply Z.leb_gt in Hxy; lia.
Qed.

Lemma sort_messages_stable k l :
  List.filter (fun m => bool_decide (sort_key m = k)) (sort_messages l)
  = List.filter (fun m => bool_decide (sort_key m = k)) l.
Proof.
  induction l as [|x l IH]; [reflexivity|].
  cbn [sort_messages fold_right]. fold (sort_messages l).
  rewrite insert_by_key_stable. cbn [List.filter]. now rewrite IH.
Qed.

(** A list sorted by the key is its system messages followed by its other
    messages, each group in the order of the timestamps. *)
Lemma key_sorted_split l :
  StronglySorted key_ord l ->
  l = List.filter is_system l ++ List.filter non_system l
  /\ StronglySorted by_time (List.filter is_system l)
  /\ StronglySorted by_time (List.filter non_system l).
Proof.
  induction 1 as [|x l Hs (IHeq & IHsys & IHoth) Hx]; simpl.
  - repeat constructor.
  - destruct (is_system x) eqn:Hsx.
    + assert (Hnx : non_system x = false) by (unfold non_system; now rewrite Hsx).
      rewrite Hnx. simpl.
      split; [f_equal; exact IHeq|]. split; [|exact IHoth].
      constructor; [exact IHsys|].
      rewrite List.Forall_forall in *. intros y Hy.
      apply List.filter_In in Hy as [Hy Hsy]. specialize (Hx y Hy).
      unfold key_ord, key_le, sort_key, non_system, by_time in *. simpl in Hx.
      rewrite Hsx, Hsy in Hx. simpl in Hx. now apply Z.leb_le.
    + assert (Hnx : non_system x = true) by (unfold non_system; now rewrite Hsx).
      rewrite Hnx.
      assert (Hall : Forall (fun y => is_system y = false /\ by_time x y) l).
      { eapply List.Forall_impl; [|exact Hx].
        intros y Hy. unfold key_ord, key_le, sort_key in Hy.
        simpl in Hy. rewrite Hnx in Hy. unfold non_system in Hy.
        destruct (is_system y); simpl in Hy; [discriminate|].
        split; [reflexivity|now apply Z.leb_le]. }
      assert (Hnone : List.filter is_system l = []).
      { clear -Hall. induction Hall as [|y l [Hy _] _ IH]; simpl; auto.
        now rewrite Hy. }
      rewrite Hnone in *. simpl in *.
      split; [f_equal; exact IHeq|]. split; [constructor|].
      constructor; [exact IHoth|]. rewrite <- IHeq.
      eapply List.Forall_impl; [|exact Hall]. now intros y [_ H].
Qed.

End SortFacts.
Section RetrievalFacts.

Import ContextManager.

Variable encode : str -> list N.

Lemma total_cost_app l1 l2 :
  total_cost encode (l1 ++ l2) = total_cost encode l1 + total_cost encode l2.
Proof.
  unfold total_cost. induction l1 as [|m l1 IH]; simpl; [reflexivity|].
  rewrite IH. lia.
Qed.

Lemma total_cost_perm l1 l2 :
  Permutation l1 l2 -> total_cost encode l1 = total_cost encode l2.
Proof.
  unfold total_cost. induction 1; simpl; lia.
Qed.

(** The loop takes a prefix of the pending list: either everything, or
    up to the first message that would pass the budget. *)
Lemma take_recent_spec b pending : forall total acc,
  exists taken rest,
    pending = taken ++ rest
    /\ take_recent encode b pending total acc = acc ++ taken
    /\ (taken = [] \/ total + total_cost encode taken <= b)
    /\ match rest with
       | [] => True
       | m :: _ => total + total_cost encode taken + _count_message_tokens encode m > b
       end.
Proof.
  induction pending as [|m pending IH]; intros total acc.
  - exists [], []. simpl. rewrite app_nil_r. auto.
  - simpl. destruct (Z.leb_spec (total + _count_message_tokens encode m) b) as [Hle|Hgt].
    + destruct (IH (total + _count_message_tokens encode m) (acc ++ [m]))
        as (taken & rest & -> & Hres & Hin & Hout).
      exists (m :: taken), rest. rewrite Hres, <- app_assoc. simpl.
      split; [reflexivity|]. split; [reflexivity|].
      change (total_cost encode (m :: taken))
        with (_count_message_tokens encode m + total_cost encode taken).
      split.
      * right. destruct Hin as [->|Hin]; [change (total_cost encode []) with 0|]; lia.
      * destruct rest; [exact I|]. lia.
    + exists [], (m :: pending). simpl. rewrite app_nil_r.
      repeat split; auto. change (total_cost encode []) with 0. lia.
Qed.

(** The guard on the empty window of [get_context] agrees with the
    general path. *)
Lemma get_context_fst b w :
  fst (get_context encode b w)
  = sort_messages
      (take_recent encode b (rev (List.filter non_system (messages w)))
         (total_cost encode (List.filter is_system (messages w)))
         (List.filter is_system (messages w))).
Proof. unfold get_context. now destruct (messages w). Qed.

(** C10. Retrieval is read-only: [get_context] returns the window it was
    given, with the same message list, [max_messages] and [model_name], so
    a second retrieval with the same budget returns the same list. *)
Theorem get_context_read_only (max_tokens : Z) (w : t) :
  snd (get_context encode max_tokens w) = w
  /\ messages (snd (get_context encode max_tokens w)) = messages w
  /\ max_messages (snd (get_context encode max_tokens w)) = max_messages w
  /\ model_name (snd (get_context encode max_tokens w)) = model_name w
  /\ fst (get_context encode max_tokens (snd (get_context encode max_tokens w)))
     = fst (get_context encode max_tokens w).
Proof.
  assert (H : snd (get_context encode max_tokens w) = w).
  { unfold get_context. now destruct (messages w). }
  rewrite H. repeat split.
Qed.

(** C4. Retrieval ordering: the list returned by [get_context] is its
    system turns followed by its non-system turns, whatever the
    timestamps, and each of the two groups is in the order of the
    timestamps; a window without messages gives the empty list. *)
Theorem get_context_ordering (max_tokens : Z) (w : t) :
  (exists sys others,
      fst (get_context encode max_tokens w) = sys ++ others
      /\ Forall (fun m => is_system m = true) sys
      /\ Forall (fun m => non_system m = true) others
      /\ StronglySorted by_time sys
      /\ StronglySorted by_time others)
  /\ forall max name, fst (get_context encode max_tokens (mk [] max name)) = [].
Proof.
  split; [|reflexivity].
  assert (Hs : StronglySorted key_ord (fst (get_context encode max_tokens w))).
  { unfold get_context. destruct (messages w); simpl; [constructor|].
    apply sort_messages_sorted. }
  destruct (key_sorted_split _ Hs) as (Heq & Hsys & Hoth).
  eexists _, _. split; [exact Heq|].
  repeat split; auto; apply List.Forall_forall; intros m Hm;
    now apply List.filter_In in Hm.
Qed.

(** C3 (amended). Token budget of retrieval.  The list returned is a
    rearrangement of all system turns of the window and of the [taken]
    most recent non-system turns, where [taken] is a prefix of the
    non-system turns read from the most recent one: either none is taken
    or the system turns and the taken ones cost at most the budget, and
    the first turn left out, if any, would pass the budget.  So the cost
    of the result is at most the larger of the budget and the cost of all
    system turns together.  A turn costs the tokens of its role, the
    tokens of its content, and 4. *)
Theorem get_context_token_budget (max_tokens : Z) (w : t) :
  let r := fst (get_context encode max_tokens w) in
  let system_messages := List.filter is_system (messages w) in
  let other_messages := List.filter non_system (messages w) in
  (forall m, _count_message_tokens encode m
             = _count_tokens encode (role_str (role m))
               + _count_tokens encode (content m) + 4)
  /\ exists taken rest,
    rev other_messages = taken ++ rest
    /\ Permutation r (system_messages ++ taken)
    /\ (taken = []
        \/ total_cost encode system_messages + total_cost encode taken <= max_tokens)
    /\ match rest with
       | [] => True
       | m :: _ =>
           total_cost encode system_messages + total_cost encode taken
           + _count_message_tokens encode m > max_tokens
       end
    /\ total_cost encode r
       <= Z.max max_tokens (total_cost encode system_messages).
Proof.
  intros r system_messages other_messages. split; [reflexivity|].
  destruct (take_recent_spec max_tokens (rev other_messages)
              (total_cost encode system_messages) system_messages)
    as (taken & rest & Hsplit & Hres & Hin & Hout).
  assert (Hr : Permutation r (system_messages ++ taken)).
  { unfold r. rewrite get_context_fst, sort_messages_perm.
    fold system_messages other_messages. now rewrite Hres. }
  exists taken, rest. repeat split; auto.
  rewrite (total_cost_perm _ _ Hr), total_cost_app.
  destruct Hin as [->|Hin]; [change (total_cost encode []) with 0|]; lia.
Qed.

End RetrievalFacts.

(** C3, as stated, fails: two system turns of 17 and 18 tokens against a
    budget of 20.  No single system turn passes the budget, and the turns
    returned cost 35. *)
Lemma get_context_budget_counterexample :
  ContextManager.total_cost Examples.char_encode
    (fst (ContextManager.get_context Examples.char_encode 20
            (ContextManager.mk [Examples.rules; Examples.rules2] 10 (of_ascii "gpt-4"))))
  = 35
  /\ 35 > 20
  /\ Forall (fun m => ContextManager._count_message_tokens Examples.char_encode m <= 20)
       [Examples.rules; Examples.rules2].
Proof.
  split; [reflexivity|]. split; [lia|].
  repeat constructor; vm_compute; discriminate.
Qed.

(* ===================================================================== *)
(** * Summarisation *)
(* ===================================================================== *)

Section StripFacts.

Lemma lstrip_app_nonempty a b : lstrip a <> [] -> lstrip (a ++ b) = lstrip a ++ b.
Proof.
  induction a as [|c a IH]; simpl; [congruence|].
  destruct (isspace c); auto.
Qed.

Lemma rstrip_app_nonempty p s : rstrip s <> [] -> rstrip (p ++ s) = p ++ rstrip s.
Proof.
  unfold rstrip. intros Hs. rewrite rev_app_distr, lstrip_app_nonempty.
  - now rewrite rev_app_distr, rev_involutive.
  - intros H. rewrite H in Hs. now apply Hs.
Qed.

Lemma rstrip_snoc t c : isspace c = false -> rstrip (t ++ [c]) = t ++ [c].
Proof.
  intros Hc. unfold rstrip. rewrite rev_app_distr. simpl. rewrite Hc.
  simpl. now rewrite rev_involutive.
Qed.

Lemma lstrip_snoc a c : isspace c = false -> lstrip (a ++ [c]) = lstrip a ++ [c].
Proof.
  intros Hc. induction a as [|d a IH]; simpl; [now rewrite Hc|].
  now destruct (isspace d).
Qed.

Lemma rstrip_cons c s : isspace c = false -> rstrip (c :: s) = c :: rstrip s.
Proof.
  intros Hc. unfold rstrip. simpl. rewrite lstrip_snoc by exact Hc.
  now rewrite rev_app_distr.
Qed.

Lemma rstrip_cons_nonempty c s : isspace c = false -> rstrip (c :: s) <> [].
Proof. intros Hc. now rewrite rstrip_cons. Qed.

Lemma lstrip_idempotent s : lstrip (lstrip s) = lstrip s.
Proof.
  induction s as [|c s IH]; simpl; [reflexivity|].
  destruct (isspace c) eqn:Hc; [exact IH|]. simpl. now rewrite Hc.
Qed.

Lemma rstrip_idempotent s : rstrip (rstrip s) = rstrip s.
Proof. unfold rstrip. now rewrite rev_involutive, lstrip_idempotent. Qed.

Lemma lstrip_head s : lstrip s = [] \/ exists c t, lstrip s = c :: t /\ isspace c = false.
Proof.
  induction s as [|c s IH]; simpl; [now left|].
  destruct (isspace c) eqn:Hc; [exact IH|]. right. eauto.
Qed.

(** [strip] returns a stripped string. *)
Lemma strip_idempotent s : strip (strip s) = strip s.
Proof.
  unfold strip. destruct (lstrip_head s) as [->|(c & t & -> & Hc)]; [reflexivity|].
  rewrite (rstrip_cons c t Hc). simpl. rewrite Hc.
  rewrite <- (rstrip_cons c t Hc). apply rstrip_idempotent.
Qed.

(** The constructor builds valid messages. *)
Lemma new_valid r c md now m :
  MessageModel.new r c md now = Ok m -> ContextManager.valid_message m.
Proof.
  unfold MessageModel.new, ContextManager.valid_message, MessageModel.validate_content.
  destruct c as [|c0 c']; [discriminate|].
  destruct (strip (c0 :: c')) as [|d s] eqn:Hs; [discriminate|].
  intros [= <-]. simpl. rewrite <- Hs, strip_idempotent. now rewrite Hs.
Qed.

Lemma startswith_refl s : startswith s s = true.
Proof. induction s as [|c s IH]; simpl; auto. now rewrite N.eqb_refl. Qed.

Lemma contains_nil s : contains s [] = true.
Proof. now destruct s. Qed.

Lemma contains_suffix p s : contains (p ++ s) s = true.
Proof.
  induction p as [|c p IH].
  - destruct s as [|c s]; [reflexivity|].
    change (startswith (c :: s) (c :: s) || contains s (c :: s) = true).
    now rewrite startswith_refl.
  - change (startswith (c :: p ++ s) s || contains (p ++ s) s = true).
    rewrite IH. apply orb_true_r.
Qed.

(** The content of the summary turn after validation. *)
Lemma strip_summary_prefix s :
  strip (ContextManager.summary_prefix ++ s)
  = rstrip (ContextManager.summary_prefix ++ s)
  /\ rstrip (ContextManager.summary_prefix ++ s) <> [].
Proof.
  unfold strip. split.
  - reflexivity.
  - apply rstrip_cons_nonempty. reflexivity.
Qed.

Lemma summary_message_new s now :
  MessageModel.new system (ContextManager.summary_prefix ++ s) None now
  = Ok (mkMessage system (strip (ContextManager.summary_prefix ++ s)) now None).
Proof.
  unfold MessageModel.new, MessageModel.validate_content.
  destruct (strip_summary_prefix s) as [_ Hne].
  change (strip (ContextManager.summary_prefix ++ s))
    with (rstrip (ContextManager.summary_prefix ++ s)).
  simpl app at 1.
  destruct (rstrip (ContextManager.summary_prefix ++ s)) eqn:E; [congruence|].
  reflexivity.
Qed.

Lemma strip_summary_contains s :
  contains (strip (ContextManager.summary_prefix ++ s)) (rstrip s) = true.
Proof.
  change (strip (ContextManager.summary_prefix ++ s))
    with (rstrip (ContextManager.summary_prefix ++ s)).
  destruct (rstrip s) as [|c r] eqn:Hs.
  - apply contains_nil.
  - rewrite <- Hs, rstrip_app_nonempty by (rewrite Hs; discriminate).
    apply contains_suffix.
Qed.

End StripFacts.

Section SummaryFacts.

Import ContextManager.

(** C9 (amended). Summarisation contract.  [summarize_old_context] raises
    its [ValueError] exactly when the window has fewer than two turns or
    no non-system turn, and then leaves the window as it was.  Otherwise
    it calls the summarizer on the non-system turns in order, returns the
    summary as the summarizer gave it, and replaces the turns by the
    system turns followed by one new system turn.  The content of that
    turn is the prefix followed by the summary, stripped of surrounding
    white space by the validator of the turn: it contains the summary
    without its trailing white space, and the summary itself when the
    summary does not end in white space. *)
Theorem summarize_old_context_contract
  (summarizer_func : list Message -> str) (now : Z) (w : t) :
  let others := List.filter non_system (messages w) in
  let r := summarize_old_context summarizer_func now w in
  let summary := summarizer_func others in
  ((length (messages w) < 2)%nat \/ others = [] ->
     (exists msg, fst r = Err (ValueError msg)) /\ snd r = w)
  /\ ((2 <= length (messages w))%nat /\ others <> [] ->
      fst r = Ok summary
      /\ (exists m,
            messages (snd r) = List.filter is_system (messages w) ++ [m]
            /\ role m = system
            /\ content m = strip (summary_prefix ++ summary)
            /\ contains (content m) (rstrip summary) = true
            /\ (forall t c, summary = t ++ [c] -> isspace c = false ->
                content m = summary_prefix ++ summary))
      /\ max_messages (snd r) = max_messages w
      /\ model_name (snd r) = model_name w).
Proof.
  intros others r summary. unfold r, summarize_old_context.
  fold others. fold summary. rewrite summary_message_new.
  destruct (Nat.ltb_spec (length (messages w)) 2) as [Hlt|Hge].
  - split; [intros _; simpl; eauto|]. intros [H _]. lia.
  - destruct others as [|o os] eqn:Ho.
    + split; [intros _; simpl; eauto|]. intros [_ H]. congruence.
    + split; [intros [H|H]; [lia|discriminate]|]. intros _. simpl.
      split; [reflexivity|]. split; [|split; reflexivity].
      eexists. split; [reflexivity|]. simpl.
      split; [reflexivity|]. split; [reflexivity|].
      split; [apply strip_summary_contains|].
      intros t c Ht Hc.
      change (rstrip (summary_prefix ++ summary) = summary_prefix ++ summary).
      rewrite Ht, app_assoc. now apply rstrip_snoc.
Qed.

End SummaryFacts.

(** C9, as stated, fails on the content of the summary turn: for the
    summary ["S "] the turn stored holds the prefix and ["S"], which does
    not contain ["S "]; the summary returned is ["S "]. *)
Lemma summarize_content_counterexample :
  fst (ContextManager.summarize_old_context (fun _ => of_ascii "S ") 7 Examples.window)
  = Ok (of_ascii "S ")
  /\ ContextManager.messages
       (snd (ContextManager.summarize_old_context (fun _ => of_ascii "S ") 7
               Examples.window))
     = [Examples.rules;
        mkMessage system (ContextManager.summary_prefix ++ of_ascii "S") 7 None]
  /\ contains (ContextManager.summary_prefix ++ of_ascii "S") (of_ascii "S ") = false.
Proof. repeat split. Qed.

(* ===================================================================== *)
(** * Persistence of the window *)
(* ===================================================================== *)

Section PersistenceFacts.

Import ContextManager.

Variable isoformat : Z -> str.

Lemma role_of_str_role_str r : role_of_str (role_str r) = Some r.
Proof. now destruct r. Qed.

Lemma metadata_round_trip md : metadata_of_json (metadata_to_json md) = Ok md.
Proof.
  destruct md as [d|]; simpl; [|reflexivity].
  rewrite bool_decide_eq_true_2.
  - do 2 f_equal. apply map_eq. intros k.
    rewrite lookup_omap, lookup_fmap. now destruct (d !! k).
  - intros k v Hv. rewrite lookup_fmap in Hv.
    destruct (d !! k); simpl in Hv; [|discriminate].
    injection Hv as <-. simpl. eauto.
Qed.

(** Reading back one saved message: every field but the timestamp. *)
Lemma message_round_trip now msg :
  message_of_json now (message_to_json isoformat msg)
  = MessageModel.new (role msg) (content msg) (metadata msg) now.
Proof.
  unfold message_of_json, message_to_json.
  change ((<[of_ascii "role":=JStr (role_str (role msg))]>
           (<[of_ascii "content":=JStr (content msg)]>
            (<[of_ascii "timestamp":=JStr (isoformat (timestamp msg))]>
             (<[of_ascii "metadata":=metadata_to_json (metadata msg)]> ∅))))
          !! of_ascii "role") with (Some (JStr (role_str (role msg)))).
  cbv beta iota.
  change ((<[of_ascii "role":=JStr (role_str (role msg))]>
           (<[of_ascii "content":=JStr (content msg)]>
            (<[of_ascii "timestamp":=JStr (isoformat (timestamp msg))]>
             (<[of_ascii "metadata":=metadata_to_json (metadata msg)]> ∅))))
          !! of_ascii "content") with (Some (JStr (content msg))).
  cbv beta iota.
  change ((<[of_ascii "role":=JStr (role_str (role msg))]>
           (<[of_ascii "content":=JStr (content msg)]>
            (<[of_ascii "timestamp":=JStr (isoformat (timestamp msg))]>
             (<[of_ascii "metadata":=metadata_to_json (metadata msg)]> ∅))))
          !! of_ascii "metadata") with (Some (metadata_to_json (metadata msg))).
  unfold role_of_json. rewrite role_of_str_role_str. simpl.
  now rewrite metadata_round_trip.
Qed.

Lemma messages_round_trip now ms : forall k,
  Forall valid_message ms ->
  messages_of_items now k (map (message_to_json isoformat) ms)
  = Ok (restamp now k ms).
Proof.
  induction ms as [|m ms IH]; intros k Hv; [reflexivity|].
  inversion Hv as [|? ? Hm Hms]; subst.
  cbn [map messages_of_items restamp].
  rewrite message_round_trip. unfold MessageModel.new.
  unfold valid_message in Hm. rewrite Hm.
  cbn [bind]. now rewrite IH.
Qed.

(** The round trip of a window of valid messages: the model name, the
    limit and the messages come back, each message with its role, content
    and metadata, and with the time of loading as its timestamp. *)
Lemma load_save_round_trip now path w w0 fs :
  Forall valid_message (messages w) ->
  load_from_file now path w0 (snd (save_to_file isoformat path w fs))
  = Some (Ok tt, mk (restamp now 0 (messages w)) (max_messages w) (model_name w)).
Proof.
  intros Hv. unfold load_from_file, save_to_file. cbn [snd].
  rewrite lookup_insert_eq. unfold to_document. cbv beta iota.
  change (get_str_or _ (of_ascii "model_name") (model_name w0))
    with (Some (model_name w)).
  change (get_int_or _ (of_ascii "max_messages") (max_messages w0))
    with (Some (max_messages w)).
  cbv beta iota.
  change ((<[of_ascii "model_name":=JStr (model_name w)]>
           (<[of_ascii "max_messages":=JInt (max_messages w)]>
            (<[of_ascii "messages":=JArr (map (message_to_json isoformat) (messages w))]>
             ∅))) !! of_ascii "messages")
    with (Some (JArr (map (message_to_json isoformat) (messages w)))).
  cbv beta iota. unfold messages_of_json.
  now rewrite messages_round_trip.
Qed.

End PersistenceFacts.

(** C1. Round trip of persistence, at a window of three turns stamped at
    1 s, 3 s and 2 s, saved and then loaded when the clock reads 9 s.
    The window that comes back has the model name, the limit, and the
    roles and contents in order; every timestamp is the time of loading,
    not the one saved: [load_from_file] does not read the ["timestamp"]
    entry that [save_to_file] wrote. *)
Theorem load_from_file_replaces_timestamps (isoformat : Z -> str) :
  exists w',
    ContextManager.load_from_file Examples.later Examples.saved_path
      (ContextManager.init 3 [])
      (snd (ContextManager.save_to_file isoformat Examples.saved_path
              Examples.window ∅))
    = Some (Ok tt, w')
    /\ ContextManager.model_name w' = ContextManager.model_name Examples.window
    /\ ContextManager.max_messages w' = ContextManager.max_messages Examples.window
    /\ map role (ContextManager.messages w')
       = map role (ContextManager.messages Examples.window)
    /\ map content (ContextManager.messages w')
       = map content (ContextManager.messages Examples.window)
    /\ map (fun m => ContextManager.seconds (timestamp m))
         (ContextManager.messages Examples.window) = [1; 3; 2]
    /\ map (fun m => ContextManager.seconds (timestamp m))
         (ContextManager.messages w') = [9; 9; 9].
Proof.
  eexists. split.
  - apply load_save_round_trip. repeat constructor.
  - repeat split.
Qed.

(* ===================================================================== *)
(** * Sessions *)
(* ===================================================================== *)

Section SessionFacts.

Import StateManager.

Lemma exists_true id st :
  JSONStorage.exists_ id st = true ->
  exists v, JSONStorage.files st !! JSONStorage._get_file_path id = Some v.
Proof. intros H. now apply bool_decide_eq_true_1 in H as [v Hv]; exists v. Qed.

Lemma exists_false id st :
  JSONStorage.exists_ id st = false <->
  JSONStorage.files st !! JSONStorage._get_file_path id = None.
Proof.
  unfold JSONStorage.exists_. rewrite bool_decide_eq_false.
  destruct (_ !! _); split; intros H; try done.
  exfalso. apply H. eauto.
Qed.

Lemma not_cached id (self : t) :
  bool_decide (is_Some (sessions self !! id)) = false -> sessions self !! id = None.
Proof.
  intros Hin. apply bool_decide_eq_false_1 in Hin.
  destruct (sessions self !! id) eqn:E; [exfalso; apply Hin; eauto|reflexivity].
Qed.

(** Deleting a session whose file exists: gone from memory and disk. *)
Lemma delete_session_stored id self :
  JSONStorage.exists_ id (storage self) = true ->
  fst (delete_session id self) = Ok tt
  /\ sessions (snd (delete_session id self)) !! id = None
  /\ JSONStorage.exists_ id (storage (snd (delete_session id self))) = false.
Proof.
  intros He. apply exists_true in He as [v Hv].
  unfold delete_session, JSONStorage.delete. cbv zeta.
  destruct (bool_decide (is_Some (sessions self !! id))) eqn:Hin;
    cbn [storage set_sessions]; rewrite Hv;
    cbn [fst snd set_storage sessions storage];
    (split; [reflexivity|]); split;
    try (apply exists_false; cbn [JSONStorage.files]; apply lookup_delete_eq).
  - apply lookup_delete_eq.
  - now apply not_cached.
Qed.

(** Deleting a session whose file is missing raises, in memory or not. *)
Lemma delete_session_not_stored id self :
  JSONStorage.exists_ id (storage self) = false ->
  fst (delete_session id self) = Err (NotFoundError (SessionNotFound id))
  /\ sessions (snd (delete_session id self)) !! id = None
  /\ JSONStorage.exists_ id (storage (snd (delete_session id self))) = false.
Proof.
  intros He. pose proof He as Hv. apply exists_false in Hv.
  unfold delete_session, JSONStorage.delete. cbv zeta.
  destruct (bool_decide (is_Some (sessions self !! id))) eqn:Hin;
    cbn [storage set_sessions sessions]; rewrite Hv.
  - rewrite (bool_decide_eq_true_2 _ (lookup_delete_eq (sessions self) id)).
    cbn [fst snd set_storage sessions storage].
    split; [reflexivity|]. split; [apply lookup_delete_eq|exact He].
  - rewrite (bool_decide_eq_true_2 _ (not_cached id self Hin)).
    cbn [fst snd set_storage sessions storage].
    split; [reflexivity|]. split; [now apply not_cached|exact He].
Qed.

End SessionFacts.

(** C5. [delete_session] on a session that is in the memory cache and
    has no file in the store: the session is in memory before the call,
    the call raises [NotFoundError], and the session is gone from memory
    afterwards.  The handler tests [session_id not in self.sessions]
    after the [del], so the test holds for every session id. *)
Theorem delete_session_cached_raises :
  StateManager.sessions Examples.memory_only !! Examples.session_id
  = Some (Examples.session (Some 100))
  /\ JSONStorage.exists_ Examples.session_id
       (StateManager.storage Examples.memory_only) = false
  /\ fst (StateManager.delete_session Examples.session_id Examples.memory_only)
     = Err (NotFoundError (SessionNotFound Examples.session_id))
  /\ StateManager.sessions
       (snd (StateManager.delete_session Examples.session_id Examples.memory_only))
     !! Examples.session_id = None.
Proof.
  assert (He : JSONStorage.exists_ Examples.session_id
                 (StateManager.storage Examples.memory_only) = false)
    by reflexivity.
  destruct (delete_session_not_stored _ _ He) as (Hr & Hs & _).
  repeat split; assumption || reflexivity.
Qed.

Section ExpiryFacts.

Import StateManager.

Variable from_dict : json -> result AgentState.t.

(** C6. Expired sessions are unreachable.  Take a session whose
    [expires_at] is set and before [now], held in the memory cache, or
    absent from the cache and stored as a document that [from_dict]
    reads as this session.  Then [get_session] raises [NotFoundError],
    and after the call the session is neither in the memory cache nor in
    the store. *)
Theorem get_session_expired id now self state e :
  AgentState.expires_at state = Some e ->
  e < now ->
  (sessions self !! id = Some state
   \/ (sessions self !! id = None
       /\ exists data, JSONStorage.load id (storage self) = Ok data
                       /\ from_dict data = Ok state)) ->
  (exists msg, fst (get_session from_dict id now self) = Err (NotFoundError msg))
  /\ sessions (snd (get_session from_dict id now self)) !! id = None
  /\ JSONStorage.exists_ id (storage (snd (get_session from_dict id now self))) = false.
Proof.
  intros He Hlt Hwhere.
  assert (Hexp : AgentState.is_expired now state = true).
  { unfold AgentState.is_expired. rewrite He. apply Z.gtb_lt. lia. }
  unfold get_session.
  destruct Hwhere as [Hmem | (Hmem & data & Hload & Hdata)]; rewrite Hmem.
  - rewrite Hexp.
    destruct (JSONStorage.exists_ id (storage self)) eqn:Hfile.
    + destruct (delete_session_stored id self Hfile) as (Hr & Hs & Hf).
      destruct (delete_session id self) as [r self']. simpl in *. subst r.
      simpl. eauto.
    + destruct (delete_session_not_stored id self Hfile) as (Hr & Hs & Hf).
      destruct (delete_session id self) as [r self']. simpl in *. subst r.
      simpl. eauto.
  - rewrite Hload, Hdata, Hexp.
    assert (Hfile : JSONStorage.exists_ id (storage self) = true).
    { clear -Hload. unfold JSONStorage.load in Hload.
      apply bool_decide_eq_true_2. revert Hload.
      destruct (JSONStorage.files (storage self) !! JSONStorage._get_file_path id);
        [eauto|discriminate]. }
    destruct (delete_session_stored id self Hfile) as (Hr & Hs & Hf).
    destruct (delete_session id self) as [r self']. simpl in *. subst r.
    simpl. eauto.
Qed.

End ExpiryFacts.

Lemma get_session_expired_witness :
  ((exists msg,
       fst (StateManager.get_session Examples.read_state Examples.session_id 200
              Examples.stored) = Err (NotFoundError msg))
   /\ StateManager.sessions
        (snd (StateManager.get_session Examples.read_state Examples.session_id 200
                Examples.stored)) !! Examples.session_id = None
   /\ JSONStorage.exists_ Examples.session_id
        (StateManager.storage
           (snd (StateManager.get_session Examples.read_state Examples.session_id 200
                   Examples.stored))) = false)
  /\ ((exists msg,
         fst (StateManager.get_session Examples.read_state Examples.session_id 200
                Examples.disk_only) = Err (NotFoundError msg))
      /\ StateManager.sessions
           (snd (StateManager.get_session Examples.read_state Examples.session_id 200
                   Examples.disk_only)) !! Examples.session_id = None
      /\ JSONStorage.exists_ Examples.session_id
           (StateManager.storage
              (snd (StateManager.get_session Examples.read_state Examples.session_id 200
                      Examples.disk_only))) = false).
Proof.
  split.
  - apply (get_session_expired Examples.read_state Examples.session_id 200
             Examples.stored (Examples.session (Some 100)) 100).
    + reflexivity.
    + lia.
    + left. reflexivity.
  - apply (get_session_expired Examples.read_state Examples.session_id 200
             Examples.disk_only (Examples.session (Some 100)) 100).
    + reflexivity.
    + lia.
    + right. split; [reflexivity|].
      exists Examples.session_document. split; reflexivity.
Defined.

(* ===================================================================== *)
(** * Plug-ins *)
(* ===================================================================== *)

Section PluginFacts.

Import PluginManager.

(** What [_validate_plugin] accepts, for a plug-in whose getters return:
    a schema that is a [dict] with a ["name"] entry.  The strings
    themselves are not looked at. *)
Lemma validate_plugin_accepts p n s v d :
  BasePlugin.name p = Ok n ->
  BasePlugin.description p = Ok s ->
  BasePlugin.version p = Ok v ->
  BasePlugin.get_schema p = Ok (Some d) ->
  is_Some (d !! of_ascii "name") ->
  _validate_plugin p = Ok tt.
Proof.
  intros Hn Hs Hv Hd Hname. unfold _validate_plugin.
  rewrite Hn, Hs, Hv, Hd. cbn [bind].
  now rewrite (bool_decide_eq_true_2 _ Hname).
Qed.

(** A failed validation refuses the registration before any plug-in code
    other than the getters has run. *)
Lemma register_plugin_invalid p n e self :
  BasePlugin.name p = Ok n ->
  _validate_plugin p = Err e ->
  register_plugin p self = (Err (PluginError RegistrationFailed (Some e)), self).
Proof.
  intros Hn He. unfold register_plugin, register_body. now rewrite He, Hn.
Qed.

(** C7 (amended). Registration validation.  For a plug-in whose [name]
    getter returns: when the [description] or [version] getter raises,
    when [get_schema] raises or returns a value that is not a [dict], or
    a [dict] without a ["name"] entry, [register_plugin] raises the
    "registration failed" error and the manager is as before; when
    validation passes and [initialize] raises [e], it raises that error
    around [e] and the registry is as before; when validation passes and
    [initialize] returns, the plug-in is stored under its name, whatever
    the strings are (empty ones included). *)
Theorem register_plugin_validation p self n :
  BasePlugin.name p = Ok n ->
  (forall e, BasePlugin.description p = Err e ->
     registration_rejected (register_plugin p self) self)
  /\ (forall e, BasePlugin.version p = Err e ->
        registration_rejected (register_plugin p self) self)
  /\ (forall e, BasePlugin.get_schema p = Err e ->
        registration_rejected (register_plugin p self) self)
  /\ (BasePlugin.get_schema p = Ok None ->
        registration_rejected (register_plugin p self) self)
  /\ (forall d, BasePlugin.get_schema p = Ok (Some d) ->
        d !! of_ascii "name" = None ->
        registration_rejected (register_plugin p self) self)
  /\ (forall e, _validate_plugin p = Ok tt -> BasePlugin.initialize p = Err e ->
        fst (register_plugin p self) = Err (PluginError RegistrationFailed (Some e))
        /\ plugins (snd (register_plugin p self)) = plugins self)
  /\ (forall s v d, BasePlugin.description p = Ok s -> BasePlugin.version p = Ok v ->
        BasePlugin.get_schema p = Ok (Some d) -> is_Some (d !! of_ascii "name") ->
        BasePlugin.initialize p = Ok tt ->
        fst (register_plugin p self) = Ok tt
        /\ plugins (snd (register_plugin p self)) = <[n := p]> (plugins self)).
Proof.
  intros Hn.
  assert (Hrej : forall e, _validate_plugin p = Err e ->
                   registration_rejected (register_plugin p self) self).
  { intros e He. rewrite (register_plugin_invalid p n e self Hn He).
    split; simpl; eauto. }
  split; [|split; [|split; [|split; [|split; [|split]]]]].
  - intros e He. eapply Hrej. unfold _validate_plugin. rewrite Hn, He. reflexivity.
  - intros e He. unfold _validate_plugin in Hrej. rewrite Hn, He in Hrej.
    destruct (BasePlugin.description p); eapply Hrej; reflexivity.
  - intros e He. unfold _validate_plugin in Hrej. rewrite Hn, He in Hrej.
    destruct (BasePlugin.description p), (BasePlugin.version p);
      eapply Hrej; reflexivity.
  - intros He. unfold _validate_plugin in Hrej. rewrite Hn, He in Hrej.
    destruct (BasePlugin.description p), (BasePlugin.version p);
      eapply Hrej; reflexivity.
  - intros d He Hd. unfold _validate_plugin in Hrej. rewrite Hn, He in Hrej.
    cbn [bind] in Hrej.
    rewrite bool_decide_eq_false_2 in Hrej by (rewrite Hd; now intros [? ?]).
    destruct (BasePlugin.description p), (BasePlugin.version p);
      eapply Hrej; reflexivity.
  - intros e Hval Hinit. unfold register_plugin, register_body.
    rewrite Hval, Hn, Hinit. split; reflexivity.
  - intros s v d Hs Hv Hd Hname Hinit. unfold register_plugin, register_body.
    rewrite (validate_plugin_accepts p n s v d) by assumption.
    rewrite Hn, Hinit, Hv. split; reflexivity.
Qed.

Lemma register_plugin_validation_witness :
  fst (register_plugin Examples.calc init) = Ok tt
  /\ plugins (snd (register_plugin Examples.calc init))
     = <[of_ascii "calc" := Examples.calc]> (plugins init).
Proof.
  apply (register_plugin_validation Examples.calc init (of_ascii "calc") eq_refl)
    with (s := of_ascii "Evaluates an expression") (v := of_ascii "1.0.0")
         (d := {[ of_ascii "name" := JStr (of_ascii "calc") ]}).
  - reflexivity.
  - reflexivity.
  - reflexivity.
  - exists (JStr (of_ascii "calc")). reflexivity.
  - reflexivity.
Defined.

End PluginFacts.

(** C7, as stated, fails: a plug-in whose name, description and version
    are empty strings is registered, under the empty name. *)
Lemma register_blank_counterexample :
  BasePlugin.name Examples.blank = Ok []
  /\ BasePlugin.description Examples.blank = Ok []
  /\ BasePlugin.version Examples.blank = Ok []
  /\ fst (PluginManager.register_plugin Examples.blank PluginManager.init) = Ok tt
  /\ PluginManager.plugins
       (snd (PluginManager.register_plugin Examples.blank PluginManager.init)) !! []
     = Some Examples.blank.
Proof. repeat split. Qed.

Section ExecutionFacts.

Import PluginManager.

(** C8. Plug-in execution gating.  For a registered name: when the
    plug-in is enabled, [execute_plugin] calls its [execute] once with
    the given context and returns its result map as it is, or wraps the
    exception it raised as the "execution failed" error; after
    [disable_plugin], [execute_plugin] on that name raises the "disabled"
    error and makes no call; for a name that is not registered it raises
    "not found" and makes no call. *)
Theorem execute_plugin_gating name context self p :
  plugins self !! name = Some p ->
  (BasePlugin.enabled p = true ->
     (forall res, BasePlugin.execute p context = Ok res ->
        execute_plugin name context self
        = (Ok res, record_call self (CallExecute p context)))
     /\ (forall e, BasePlugin.execute p context = Err e ->
           execute_plugin name context self
           = (Err (PluginExecutionError ExecutionFailed e),
              record_call self (CallExecute p context))))
  /\ (fst (disable_plugin name self) = Ok tt
      /\ execute_plugin name context (snd (disable_plugin name self))
         = (Err (PluginError (PluginDisabled name) None),
            snd (disable_plugin name self))
      /\ calls (snd (disable_plugin name self)) = calls self)
  /\ (forall other, plugins self !! other = None ->
        execute_plugin other context self
        = (Err (PluginError (PluginNotFound other) None), self)).
Proof.
  intros Hp. split; [|split].
  - intros Hen. unfold execute_plugin. rewrite Hp, Hen. cbn [negb].
    split; intros r Hr; now rewrite Hr.
  - unfold disable_plugin, get_plugin. rewrite Hp. cbn [fst snd].
    split; [reflexivity|]. split; [|reflexivity].
    unfold execute_plugin. cbn [plugins set_plugins].
    now rewrite lookup_insert_eq.
  - intros other Ho. unfold execute_plugin. now rewrite Ho.
Qed.

Lemma execute_plugin_gating_witness :
  execute_plugin (of_ascii "calc") Examples.expression
    (snd (disable_plugin (of_ascii "calc") Examples.registry))
  = (Err (PluginError (PluginDisabled (of_ascii "calc")) None),
     snd (disable_plugin (of_ascii "calc") Examples.registry)).
Proof.
  exact (proj1 (proj2 (proj1 (proj2
           (execute_plugin_gating (of_ascii "calc") Examples.expression
              Examples.registry Examples.calc eq_refl))))).
Defined.

(** The scenario of the calculator: registered, executed, disabled. *)
Example calc_scenario :
  fst (execute_plugin (of_ascii "calc") Examples.expression Examples.registry)
  = Ok {[ of_ascii "result" := JInt 5 ]}
  /\ calls (snd (execute_plugin (of_ascii "calc") Examples.expression Examples.registry))
     = [CallInitialize Examples.calc; CallExecute Examples.calc Examples.expression].
Proof. split; reflexivity. Qed.

End ExecutionFacts.

(* ===================================================================== *)
(** * More on the context window *)
(* ===================================================================== *)

Section WindowContents.

Import ContextManager.

Lemma add_all_snoc ms m w : add_all (ms ++ [m]) w = add_to_context m (add_all ms w).
Proof. unfold add_all. now rewrite fold_left_app. Qed.

Lemma pop_first_non_system_others l :
  List.filter non_system (pop_first_non_system l) = tl (List.filter non_system l).
Proof.
  induction l as [|m l IH]; [reflexivity|].
  cbn [pop_first_non_system List.filter]. unfold non_system at 2.
  destruct (is_system m) eqn:Hm; cbn [negb].
  - cbn [List.filter]. unfold non_system at 1. now rewrite Hm.
  - reflexivity.
Qed.

Lemma skipn_snoc_tl {A : Type} (l : list A) (x : A) (k : nat) :
  (k <= length l)%nat -> tl (skipn k l ++ [x]) = skipn (S k) (l ++ [x]).
Proof.
  revert k. induction l as [|a l IH]; intros k Hk.
  - simpl in Hk. assert (k = 0%nat) as -> by lia. reflexivity.
  - destruct k as [|k]; [reflexivity|].
    cbn [skipn app]. rewrite IH by (simpl in Hk; lia). reflexivity.
Qed.

(** What one append does to the two groups of turns. *)
Lemma add_to_context_groups m w :
  List.filter is_system (messages (add_to_context m w))
  = List.filter is_system (messages w ++ [m])
  /\ List.filter non_system (messages (add_to_context m w))
     = if count_non_system (messages w ++ [m]) >? max_messages w
       then tl (List.filter non_system (messages w ++ [m]))
       else List.filter non_system (messages w ++ [m]).
Proof.
  unfold add_to_context. fold (count_non_system (messages w ++ [m])).
  destruct (_ >? _); cbn [messages set_messages].
  - split; [apply pop_first_non_system_keeps_system|apply pop_first_non_system_others].
  - split; reflexivity.
Qed.

(** X1. From a new window with a limit [max >= 0], after any appends the
    window holds every system turn appended, in order, and the last
    [max] non-system turns appended, in order. *)
Theorem add_all_keeps_recent (max : Z) (model : str) (ms : list Message) :
  0 <= max ->
  List.filter is_system (messages (add_all ms (init max model)))
  = List.filter is_system ms
  /\ List.filter non_system (messages (add_all ms (init max model)))
     = skipn (length (List.filter non_system ms) - Z.to_nat max)
         (List.filter non_system ms).
Proof.
  intros Hmax. induction ms as [|m ms [IHs IHo]] using rev_ind.
  - split; reflexivity.
  - rewrite add_all_snoc.
    destruct (add_to_context_groups m (add_all ms (init max model))) as [Hs Ho].
    rewrite Hs, Ho. unfold count_non_system.
    rewrite !List.filter_app, IHs, IHo, add_all_max. cbn [max_messages init].
    split; [reflexivity|].
    set (o := List.filter non_system ms) in *.
    set (k := (length o - Z.to_nat max)%nat).
    assert (Hk : (k <= length o)%nat) by (unfold k; lia).
    assert (Hlen : length (skipn k o) = (length o - k)%nat) by apply length_skipn.
    destruct (non_system m) eqn:Hm; cbn [List.filter]; rewrite ?Hm.
    + rewrite length_app, Hlen. cbn [length].
      destruct (Z.gtb_spec (Z.of_nat (length o - k + 1)) max) as [Hgt|Hle].
      * rewrite skipn_snoc_tl by exact Hk. f_equal.
        rewrite length_app. cbn [length]. subst k. lia.
      * assert (Hk' : (length (o ++ [m]) - Z.to_nat max = k)%nat)
          by (rewrite length_app; cbn [length]; subst k; lia).
        rewrite Hk', List.skipn_app.
        replace (k - length o)%nat with 0%nat by lia. reflexivity.
    + rewrite !app_nil_r, Hlen.
      destruct (Z.gtb_spec (Z.of_nat (length o - k)) max) as [Hgt|Hle];
        [subst k; lia|reflexivity].
Qed.

Lemma add_all_keeps_recent_witness :
  List.filter non_system
    (messages (add_all [Examples.hello; Examples.rules; Examples.reply; Examples.hello]
                 (init 2 (of_ascii "gpt-4"))))
  = [Examples.reply; Examples.hello].
Proof.
  exact (proj2 (add_all_keeps_recent 2 (of_ascii "gpt-4")
                  [Examples.hello; Examples.rules; Examples.reply; Examples.hello]
                  ltac:(lia))).
Defined.

End WindowContents.

Section WindowWithoutRoom.

Import ContextManager.

Lemma pop_first_non_system_all_system l :
  count_non_system l = 0 -> pop_first_non_system l = l.
Proof.
  unfold count_non_system. induction l as [|m l IH]; [reflexivity|].
  cbn [List.filter pop_first_non_system]. unfold non_system at 1.
  destruct (is_system m); cbn [negb length]; intros H; [|lia].
  now rewrite IH.
Qed.

Lemma pop_first_non_system_last l m :
  count_non_system l = 0 -> non_system m = true ->
  pop_first_non_system (l ++ [m]) = l.
Proof.
  unfold count_non_system. intros Hl Hm. induction l as [|x l IH].
  - cbn. unfold non_system in Hm. now destruct (is_system m).
  - cbn [List.filter app pop_first_non_system] in *. unfold non_system in Hl at 1.
    destruct (is_system x); cbn [negb length] in Hl; [|lia].
    now rewrite IH.
Qed.

Lemma count_non_system_filter_system l :
  count_non_system (List.filter is_system l) = 0.
Proof.
  unfold count_non_system. induction l as [|m l IH]; [reflexivity|].
  cbn [List.filter]. destruct (is_system m) eqn:Hm; [|exact IH].
  cbn [List.filter]. unfold non_system. now rewrite Hm.
Qed.

(** X2. A window whose limit is zero or negative never holds a
    non-system turn: after any appends to a new window it holds the
    system turns appended, in order, and nothing else. *)
Theorem add_all_without_room (max : Z) (model : str) (ms : list Message) :
  max <= 0 ->
  messages (add_all ms (init max model)) = List.filter is_system ms.
Proof.
  intros Hmax. induction ms as [|m ms IH] using rev_ind; [reflexivity|].
  rewrite add_all_snoc. unfold add_to_context.
  rewrite add_all_max, IH. cbn [max_messages init].
  fold (count_non_system (List.filter is_system ms ++ [m])).
  rewrite count_non_system_app, count_non_system_filter_system.
  rewrite List.filter_app. cbn [List.filter].
  pose proof (count_non_system_filter_system ms) as Hsys.
  unfold count_non_system at 1. cbn [List.filter].
  destruct (is_system m) eqn:Hm.
  - assert (Hn : non_system m = false) by (unfold non_system; now rewrite Hm).
    rewrite Hn. cbn [length].
    destruct (_ >? _); cbn [messages set_messages]; [|reflexivity].
    apply pop_first_non_system_all_system.
    rewrite count_non_system_app, Hsys. unfold count_non_system.
    cbn [List.filter]. now rewrite Hn.
  - assert (Hn : non_system m = true) by (unfold non_system; now rewrite Hm).
    rewrite Hn. cbn [length].
    destruct (Z.gtb_spec (0 + Z.of_nat 1) max) as [_|Hle]; [|lia].
    cbn [messages set_messages]. rewrite app_nil_r.
    now apply pop_first_non_system_last.
Qed.

Lemma add_all_without_room_witness :
  messages (add_all [Examples.hello; Examples.rules; Examples.reply]
              (init 0 (of_ascii "gpt-4")))
  = [Examples.rules].
Proof.
  exact (add_all_without_room 0 (of_ascii "gpt-4")
           [Examples.hello; Examples.rules; Examples.reply] ltac:(lia)).
Defined.

End WindowWithoutRoom.

(* ===================================================================== *)
(** * More on retrieval *)
(* ===================================================================== *)

Section RetrievalContents.

Import ContextManager.

Variable encode : str -> list N.

Lemma count_message_tokens_pos m : 0 < _count_message_tokens encode m.
Proof. unfold _count_message_tokens, _count_tokens. lia. Qed.

Lemma total_cost_nonneg l : 0 <= total_cost encode l.
Proof.
  unfold total_cost. induction l as [|m l IH]; simpl; [lia|].
  pose proof (count_message_tokens_pos m). lia.
Qed.

Lemma filter_partition_perm (l : list Message) :
  Permutation (List.filter is_system l ++ List.filter non_system l) l.
Proof.
  induction l as [|m l IH]; [constructor|].
  cbn [List.filter]. unfold non_system at 1.
  destruct (is_system m); cbn [negb app].
  - now constructor.
  - rewrite <- Permutation_middle. now constructor.
Qed.

Lemma filter_perm (f : Message -> bool) l l' :
  Permutation l l' -> Permutation (List.filter f l) (List.filter f l').
Proof.
  induction 1 as [|x l l' _ IH|x y l|l l' l'' _ IH1 _ IH2]; cbn [List.filter].
  - constructor.
  - destruct (f x); [now constructor|exact IH].
  - destruct (f x), (f y); try reflexivity. apply perm_swap.
  - now rewrite IH1.
Qed.

(** The turns selected, before the sort: all system turns, then the
    non-system turns taken, the most recent first. *)
Lemma get_context_selection b w :
  exists taken rest,
    rev (List.filter non_system (messages w)) = taken ++ rest
    /\ fst (get_context encode b w)
       = sort_messages (List.filter is_system (messages w) ++ taken)
    /\ match rest with
       | [] => True
       | m :: _ =>
           total_cost encode (List.filter is_system (messages w))
           + total_cost encode taken + _count_message_tokens encode m > b
       end.
Proof.
  destruct (take_recent_spec encode b (rev (List.filter non_system (messages w)))
              (total_cost encode (List.filter is_system (messages w)))
              (List.filter is_system (messages w)))
    as (taken & rest & Hsplit & Hres & _ & Hout).
  exists taken, rest. rewrite get_context_fst, Hres. auto.
Qed.

(** X3. When the budget covers the cost of the whole window
    ([get_total_tokens]), [get_context] returns every turn of the window,
    each once. *)
Theorem get_context_returns_all (max_tokens : Z) (w : t) :
  get_total_tokens encode w <= max_tokens ->
  Permutation (fst (get_context encode max_tokens w)) (messages w).
Proof.
  unfold get_total_tokens. intros Hfit.
  destruct (get_context_selection max_tokens w) as (taken & rest & Hsplit & -> & Hout).
  rewrite sort_messages_perm.
  assert (Hcost : total_cost encode (messages w)
                  = total_cost encode (List.filter is_system (messages w))
                    + total_cost encode taken + total_cost encode rest).
  { rewrite <- (total_cost_perm encode _ _ (filter_partition_perm (messages w))).
    rewrite total_cost_app.
    rewrite (total_cost_perm encode _ _ (Permutation_rev (List.filter non_system (messages w)))).
    rewrite Hsplit, total_cost_app. lia. }
  destruct rest as [|m rest].
  - rewrite app_nil_r in Hsplit. rewrite <- Hsplit, <- Permutation_rev.
    apply filter_partition_perm.
  - exfalso. change (total_cost encode (m :: rest))
      with (_count_message_tokens encode m + total_cost encode rest) in Hcost.
    pose proof (total_cost_nonneg rest). lia.
Qed.

End RetrievalContents.

Lemma get_context_returns_all_witness :
  Permutation
    (fst (ContextManager.get_context Examples.char_encode 100 Examples.window))
    (ContextManager.messages Examples.window).
Proof.
  apply (get_context_returns_all Examples.char_encode 100 Examples.window).
  vm_compute. discriminate.
Defined.

Section RetrievalOrder.

Import ContextManager.

Variable encode : str -> list N.

Lemma strongly_sorted_filter (R : Message -> Message -> Prop) f l :
  StronglySorted R l -> StronglySorted R (List.filter f l).
Proof.
  induction 1 as [|x l Hs IH Hx]; cbn [List.filter]; [constructor|].
  destruct (f x); [|exact IH]. constructor; [exact IH|].
  rewrite List.Forall_forall in *. intros y Hy.
  apply List.filter_In in Hy as [Hy _]. now apply Hx.
Qed.

Lemma strongly_sorted_suffix (R : Message -> Message -> Prop) l1 l2 :
  StronglySorted R (l1 ++ l2) -> StronglySorted R l2.
Proof.
  induction l1 as [|x l1 IH]; [easy|]. cbn [app]. intros H.
  inversion H; subst. now apply IH.
Qed.

(** A list in the order of its timestamps is the only rearrangement of a
    list with strictly increasing timestamps. *)
Lemma sorted_perm_unique l1 : forall l2,
  StronglySorted before l1 -> StronglySorted by_time l2 ->
  Permutation l1 l2 -> l2 = l1.
Proof.
  induction l1 as [|a l1 IH]; intros l2 H1 H2 Hp.
  - now apply Permutation_nil in Hp.
  - destruct l2 as [|b l2]; [now apply Permutation_sym, Permutation_nil in Hp|].
    inversion H1 as [|? ? H1' Ha]; subst. inversion H2 as [|? ? H2' Hb]; subst.
    assert (Hab : a = b).
    { assert (Hin_b : In b (a :: l1))
        by (eapply Permutation_in; [symmetry; exact Hp|now left]).
      assert (Hin_a : In a (b :: l2))
        by (eapply Permutation_in; [exact Hp|now left]).
      destruct Hin_b as [Hb'|Hb']; [exact Hb'|].
      destruct Hin_a as [Ha'|Ha']; [now symmetry|].
      rewrite List.Forall_forall in Ha, Hb.
      specialize (Ha b Hb'). specialize (Hb a Ha').
      unfold before, by_time in *. lia. }
    subst b. f_equal. apply IH; auto.
    now apply Permutation_cons_inv in Hp.
Qed.

Lemma filter_system_of_others l :
  Forall (fun m => non_system m = true) l -> List.filter is_system l = [].
Proof.
  induction 1 as [|m l Hm _ IH]; [reflexivity|].
  cbn [List.filter]. unfold non_system in Hm.
  destruct (is_system m); [discriminate|exact IH].
Qed.

Lemma filter_others_of_others l :
  Forall (fun m => non_system m = true) l -> List.filter non_system l = l.
Proof.
  induction 1 as [|m l Hm _ IH]; [reflexivity|].
  cbn [List.filter]. now rewrite Hm, IH.
Qed.

Lemma filter_others_of_system l :
  List.filter non_system (List.filter is_system l) = [].
Proof.
  induction l as [|m l IH]; [reflexivity|]. cbn [List.filter].
  destruct (is_system m) eqn:Hm; [|exact IH].
  cbn [List.filter]. unfold non_system. now rewrite Hm.
Qed.

Lemma filter_system_of_system l :
  List.filter is_system (List.filter is_system l) = List.filter is_system l.
Proof.
  induction l as [|m l IH]; [reflexivity|]. cbn [List.filter].
  destruct (is_system m) eqn:Hm; [|exact IH].
  cbn [List.filter]. now rewrite Hm, IH.
Qed.

Lemma taken_are_others (l taken rest : list Message) :
  rev (List.filter non_system l) = taken ++ rest ->
  Forall (fun m => non_system m = true) taken.
Proof.
  intros H. apply List.Forall_forall. intros m Hm.
  assert (Hin : In m (rev (List.filter non_system l)))
    by (rewrite H; apply in_or_app; now left).
  apply in_rev, List.filter_In in Hin. tauto.
Qed.

(** X4. When the timestamps of the window strictly increase in the order
    of insertion, [get_context] returns the system turns in that order,
    followed by the most recent non-system turns in that order: a suffix
    of the non-system turns of the window. *)
Theorem get_context_recent_suffix (max_tokens : Z) (w : t) :
  StronglySorted before (messages w) ->
  exists dropped kept,
    List.filter non_system (messages w) = dropped ++ kept
    /\ fst (get_context encode max_tokens w)
       = List.filter is_system (messages w) ++ kept.
Proof.
  intros Hchrono.
  destruct (get_context_selection encode max_tokens w)
    as (taken & rest & Hsplit & Hr & _).
  pose proof (taken_are_others _ _ _ Hsplit) as Htaken.
  assert (Hothers : List.filter non_system (messages w) = rev rest ++ rev taken).
  { rewrite <- rev_app_distr, <- Hsplit. now rewrite rev_involutive. }
  exists (rev rest), (rev taken). split; [exact Hothers|].
  destruct (key_sorted_split _ (sort_messages_sorted
              (List.filter is_system (messages w) ++ taken)))
    as (Heq & Hsys & Hoth).
  rewrite Hr, Heq.
  pose proof (sort_messages_perm (List.filter is_system (messages w) ++ taken)) as Hp.
  f_equal.
  - apply sorted_perm_unique; [now apply strongly_sorted_filter|exact Hsys|].
    rewrite (filter_perm is_system _ _ Hp), List.filter_app.
    now rewrite filter_system_of_system, (filter_system_of_others _ Htaken),
      app_nil_r.
  - apply sorted_perm_unique; [|exact Hoth|].
    + apply (strongly_sorted_suffix before (rev rest)). rewrite <- Hothers.
      now apply strongly_sorted_filter.
    + rewrite (filter_perm non_system _ _ Hp), List.filter_app.
      rewrite filter_others_of_system, (filter_others_of_others _ Htaken).
      symmetry. apply Permutation_rev.
Qed.

(** X5. When all non-system turns of the window carry one timestamp,
    [get_context] returns the non-system turns it keeps with the most
    recent first: the reverse of their order in the window. *)
Theorem get_context_ties_reversed (max_tokens : Z) (w : t) (t0 : Z) :
  Forall (fun m => timestamp m = t0) (List.filter non_system (messages w)) ->
  exists rest,
    rev (List.filter non_system (messages w))
    = List.filter non_system (fst (get_context encode max_tokens w)) ++ rest.
Proof.
  intros Hties.
  destruct (get_context_selection encode max_tokens w)
    as (taken & rest & Hsplit & Hr & _).
  pose proof (taken_are_others _ _ _ Hsplit) as Htaken.
  exists rest. rewrite Hsplit. f_equal. rewrite Hr.
  set (k := (true, t0)).
  assert (Hkey : forall m, In m (List.filter is_system (messages w) ++ taken) ->
                   non_system m = bool_decide (sort_key m = k)).
  { intros m Hm. apply in_app_or in Hm as [Hm|Hm].
    - apply List.filter_In in Hm as [_ Hm].
      unfold sort_key, non_system, k. rewrite Hm. cbn [negb].
      symmetry. now apply bool_decide_eq_false_2.
    - rewrite List.Forall_forall in Htaken, Hties.
      assert (Hin : In m (List.filter non_system (messages w))).
      { apply in_rev. rewrite Hsplit. apply in_or_app. now left. }
      unfold sort_key, k. rewrite (Htaken m Hm), (Hties m Hin).
      symmetry. now apply bool_decide_eq_true_2. }
  rewrite (List.filter_ext_in non_system (fun m => bool_decide (sort_key m = k))).
  - rewrite sort_messages_stable.
    rewrite <- (List.filter_ext_in non_system _ _ Hkey), List.filter_app.
    now rewrite filter_others_of_system, (filter_others_of_others _ Htaken).
  - intros m Hm. apply Hkey.
    eapply Permutation_in; [apply sort_messages_perm|exact Hm].
Qed.

End RetrievalOrder.

Lemma get_context_recent_suffix_witness :
  exists dropped kept,
    List.filter non_system (ContextManager.messages Examples.chronological)
    = dropped ++ kept
    /\ fst (ContextManager.get_context Examples.char_encode 37 Examples.chronological)
       = List.filter is_system (ContextManager.messages Examples.chronological) ++ kept.
Proof.
  apply (get_context_recent_suffix Examples.char_encode 37 Examples.chronological).
  repeat constructor; unfold ContextManager.before; simpl; lia.
Defined.

Lemma get_context_ties_reversed_witness :
  exists rest,
    rev (List.filter non_system (ContextManager.messages Examples.tied))
    = List.filter non_system
        (fst (ContextManager.get_context Examples.char_encode 100 Examples.tied))
      ++ rest.
Proof.
  apply (get_context_ties_reversed Examples.char_encode 100 Examples.tied 7000000).
  repeat constructor.
Defined.

(** The two turns of one timestamp come back in the reverse order. *)
Example tied_window_reversed :
  fst (ContextManager.get_context Examples.char_encode 100 Examples.tied)
  = [Examples.second_tie; Examples.first_tie].
Proof. reflexivity. Qed.

(* ===================================================================== *)
(** * More on summaries and on loading *)
(* ===================================================================== *)

Section SummaryAgain.

Import ContextManager.

(** X6. After a summary that succeeded the window holds system turns
    only, so a second call of [summarize_old_context] raises
    [ValueError], whatever the summarizer, and leaves the window as it
    is. *)
Theorem summarize_twice_raises
  (f g : list Message -> str) (now now' : Z) (w : t) (summary : str) :
  fst (summarize_old_context f now w) = Ok summary ->
  count_non_system (messages (snd (summarize_old_context f now w))) = 0
  /\ exists msg,
       summarize_old_context g now' (snd (summarize_old_context f now w))
       = (Err (ValueError msg), snd (summarize_old_context f now w)).
Proof.
  intros Hok.
  assert (Hw : messages (snd (summarize_old_context f now w))
               = List.filter is_system (messages w)
                 ++ [mkMessage system (strip (summary_prefix ++ summary)) now None]).
  { revert Hok. unfold summarize_old_context.
    destruct (length (messages w) <? 2)%nat; [discriminate|].
    destruct (List.filter non_system (messages w)) as [|o os]; [discriminate|].
    rewrite summary_message_new. cbn [fst snd messages set_messages].
    now intros [= ->]. }
  assert (Hnone : List.filter non_system
                    (messages (snd (summarize_old_context f now w))) = []).
  { rewrite Hw, List.filter_app, filter_others_of_system. reflexivity. }
  split.
  - unfold count_non_system. now rewrite Hnone.
  - unfold summarize_old_context at 1. rewrite Hnone.
    destruct (_ <? _)%nat; eexists; reflexivity.
Qed.

Lemma summarize_twice_raises_witness :
  count_non_system
    (messages (snd (summarize_old_context (fun _ => of_ascii "S") 7 Examples.window)))
  = 0
  /\ exists msg,
       summarize_old_context (fun _ => of_ascii "T") 8
         (snd (summarize_old_context (fun _ => of_ascii "S") 7 Examples.window))
       = (Err (ValueError msg),
          snd (summarize_old_context (fun _ => of_ascii "S") 7 Examples.window)).
Proof.
  apply (summarize_twice_raises (fun _ => of_ascii "S") (fun _ => of_ascii "T")
           7 8 Examples.window (of_ascii "S")).
  reflexivity.
Defined.



(** X8. A document without the ["messages"] entry makes [load_from_file]
    raise [ValueError]; the window has then already taken the model name
    and the limit of the document, while it keeps its messages. *)
Theorem load_from_file_partial_update
  (now : nat -> Z) (path : str) (self : t) (fs : filesystem)
  (d : gmap str json) (name' : str) (max' : Z) :
  fs !! path = Some (Some (JObj d)) ->
  d !! of_ascii "messages" = None ->
  d !! of_ascii "model_name" = Some (JStr name') ->
  d !! of_ascii "max_messages" = Some (JInt max') ->
  load_from_file now path self fs
  = Some (Err (ValueError BadFileFormat), mk (messages self) max' name').
Proof.
  intros Hfs Hm Hn Hx. unfold load_from_file, get_str_or, get_int_or.
  now rewrite Hfs, Hn, Hx, Hm.
Qed.

End SummaryAgain.

Lemma load_from_file_partial_update_witness :
  ContextManager.load_from_file Examples.later Examples.saved_path Examples.window
    Examples.headless_disk
  = Some (Err (ValueError BadFileFormat),
          ContextManager.mk (ContextManager.messages Examples.window) 3
            (of_ascii "gpt-3.5")).
Proof.
  apply (load_from_file_partial_update Examples.later Examples.saved_path
           Examples.window Examples.headless_disk Examples.headless
           (of_ascii "gpt-3.5") 3); reflexivity.
Defined.

(* ===================================================================== *)
(** * Messages and conversations *)
(* ===================================================================== *)

Section MessageFacts.

Lemma lstrip_nil_iff s : lstrip s = [] <-> forallb isspace s = true.
Proof.
  induction s as [|c s IH]; simpl; [tauto|].
  destruct (isspace c); simpl; [exact IH|]. split; discriminate.
Qed.

Lemma forallb_rev (f : N -> bool) s : forallb f (rev s) = forallb f s.
Proof.
  induction s as [|c s IH]; [reflexivity|].
  cbn [rev]. rewrite forallb_app, IH. simpl. rewrite andb_true_r. apply andb_comm.
Qed.

Lemma lstrip_forallb s : forallb isspace s = false -> forallb isspace (lstrip s) = false.
Proof.
  induction s as [|c s IH]; simpl; [discriminate|].
  destruct (isspace c) eqn:Hc; simpl; [exact IH|]. now rewrite Hc.
Qed.

(** A string strips to nothing exactly when it is white space only. *)
Lemma strip_nil_iff s : strip s = [] <-> forallb isspace s = true.
Proof.
  unfold strip, rstrip. split.
  - intros H. destruct (forallb isspace s) eqn:Hs; [reflexivity|].
    apply lstrip_forallb in Hs. rewrite <- forallb_rev in Hs.
    apply (f_equal (@rev N)) in H. rewrite rev_involutive in H. simpl in H.
    apply lstrip_nil_iff in H. congruence.
  - intros H. apply lstrip_nil_iff in H. now rewrite H.
Qed.

Lemma lstrip_no_leading s c t : lstrip s = c :: t -> isspace c = false.
Proof. destruct (lstrip_head s) as [->|(c' & t' & -> & Hc)]; congruence. Qed.

Lemma rstrip_no_trailing s t c : rstrip s = t ++ [c] -> isspace c = false.
Proof.
  unfold rstrip. intros H. apply (f_equal (@rev N)) in H.
  rewrite rev_involutive, rev_app_distr in H. simpl in H.
  now apply lstrip_no_leading in H.
Qed.

Lemma strip_no_leading s c t : strip s = c :: t -> isspace c = false.
Proof.
  unfold strip. destruct (lstrip_head s) as [->|(c' & t' & -> & Hc)]; [discriminate|].
  rewrite (rstrip_cons c' t' Hc). congruence.
Qed.

Lemma validate_content_cases (v : str) :
  (forallb isspace v = true ->
     MessageModel.validate_content v = Err (ValidationError EmptyContent))
  /\ (forallb isspace v = false ->
        MessageModel.validate_content v = Ok (strip v)
        /\ (exists c t, strip v = c :: t /\ isspace c = false)
        /\ (exists t c, strip v = t ++ [c] /\ isspace c = false)).
Proof.
  unfold MessageModel.validate_content. split; intros Hv.
  - apply strip_nil_iff in Hv. rewrite Hv. now destruct v.
  - destruct v as [|c0 v0]; [discriminate|].
    destruct (strip (c0 :: v0)) as [|c t] eqn:Hs.
    { apply strip_nil_iff in Hs. congruence. }
    split; [reflexivity|]. split.
    + exists c, t. split; [reflexivity|]. eapply strip_no_leading; eauto.
    + destruct (exists_last (l := c :: t)) as (t' & c' & Hl); [discriminate|].
      exists t', c'. split; [exact Hl|].
      eapply rstrip_no_trailing. unfold strip in Hs. rewrite Hs. exact Hl.
Qed.

(** X9. The validator of a message accepts a content exactly when it has
    a character that is not white space; the content stored is then the
    stripped one: not empty, with no white space at either end.  Any
    other content raises the validation error. *)
Theorem validate_content_spec (v : str) :
  (forallb isspace v = true ->
     MessageModel.validate_content v = Err (ValidationError EmptyContent))
  /\ (forallb isspace v = false ->
        MessageModel.validate_content v = Ok (strip v)
        /\ (exists c t, strip v = c :: t /\ isspace c = false)
        /\ (exists t c, strip v = t ++ [c] /\ isspace c = false)).
Proof. exact (validate_content_cases v). Qed.

Lemma slice_index_negative n i :
  i < 0 -> slice_index n i = Z.to_nat (Z.max (n + i) 0).
Proof. intros Hi. unfold slice_index. now destruct (Z.ltb_spec i 0); [|lia]. Qed.

(** X10. [get_history] with a positive limit returns the last turns of
    the conversation, in order, as many as the limit or all of them when
    there are fewer; with a limit of zero or less it returns nothing, and
    without a limit everything. *)
Theorem get_history_spec (c : Conversation) :
  ConversationModel.get_history None c = conv_messages c
  /\ (forall limit, limit <= 0 -> ConversationModel.get_history (Some limit) c = [])
  /\ (forall limit, 0 < limit ->
        exists older,
          conv_messages c = older ++ ConversationModel.get_history (Some limit) c
          /\ Z.of_nat (length (ConversationModel.get_history (Some limit) c))
             = Z.min limit (Z.of_nat (length (conv_messages c)))).
Proof.
  unfold ConversationModel.get_history. split; [reflexivity|]. split.
  - intros limit Hl. destruct (Z.gtb_spec limit 0); [lia|reflexivity].
  - intros limit Hl. destruct (Z.gtb_spec limit 0); [|lia].
    unfold slice_from.
    exists (firstn (slice_index (Z.of_nat (length (conv_messages c))) (- limit))
              (conv_messages c)).
    split; [now rewrite firstn_skipn|].
    rewrite length_skipn, slice_index_negative by lia. lia.
Qed.

(** X11. [add_message] with a content that is white space only raises
    and leaves the conversation as it was, [updated_at] included;
    otherwise it appends one turn with the stripped content, which
    [get_history] with limit 1 then returns, keeps the turns before it,
    and sets [updated_at]. *)
Theorem add_message_spec (r : Role) (content : str) (now now' : Z) (c : Conversation) :
  (forallb isspace content = true ->
     ConversationModel.add_message r content now now' c
     = (Err (ValidationError EmptyContent), c))
  /\ (forallb isspace content = false ->
        let c' := snd (ConversationModel.add_message r content now now' c) in
        fst (ConversationModel.add_message r content now now' c) = Ok tt
        /\ conv_messages c'
           = conv_messages c ++ [mkMessage r (strip content) now None]
        /\ ConversationModel.get_history (Some 1) c'
           = [mkMessage r (strip content) now None]
        /\ conv_updated_at c' = now'
        /\ conv_created_at c' = conv_created_at c
        /\ conv_id c' = conv_id c).
Proof.
  unfold ConversationModel.add_message, MessageModel.new.
  destruct (validate_content_cases content) as [Hbad Hgood].
  split; intros Hc.
  - now rewrite (Hbad Hc).
  - destruct (Hgood Hc) as (-> & _). cbn [fst snd conv_messages conv_updated_at
                                          conv_created_at conv_id].
    repeat split.
    unfold ConversationModel.get_history, slice_from.
    cbn [conv_messages Z.gtb Z.compare]. rewrite slice_index_negative by lia.
    rewrite length_app. cbn [length].
    replace (Z.to_nat _) with (length (conv_messages c)) by lia.
    now rewrite List.skipn_app, List.skipn_all, Nat.sub_diag.
Qed.

End MessageFacts.

(* ===================================================================== *)
(** * The JSON store *)
(* ===================================================================== *)

Section StorageFacts.

Import JSONStorage.

(** X12. The file stem of a key holds no slash and no backslash and is
    as long as the key; a key without separators is its own stem. *)
Theorem get_file_path_separator_free (key : str) :
  separator_free (_get_file_path key)
  /\ length (_get_file_path key) = length key
  /\ (separator_free key -> _get_file_path key = key).
Proof.
  unfold _get_file_path, replace_char, separator_free.
  split; [|split].
  - rewrite map_map. apply List.Forall_forall. intros c Hc.
    apply in_map_iff in Hc as (c0 & <- & _).
    destruct (N.eqb_spec c0 0x2F) as [->|H1]; [split; discriminate|].
    destruct (N.eqb_spec c0 0x5C) as [->|H2]; [split; discriminate|].
    split; assumption.
  - now rewrite !length_map.
  - intros Hfree. rewrite map_map. induction Hfree as [|c s [H1 H2] _ IH]; [reflexivity|].
    cbn [map]. rewrite IH.
    destruct (N.eqb_spec c 0x2F); [contradiction|].
    destruct (N.eqb_spec c 0x5C); [contradiction|reflexivity].
Qed.


End StorageFacts.

(* ===================================================================== *)
(** * More on sessions *)
(* ===================================================================== *)

Section SessionStateFacts.

Import StateManager.

(** Whatever it returns, [delete_session] leaves the manager without the
    session and the store without the file of its stem. *)
Lemma delete_session_state id self :
  snd (delete_session id self)
  = mk (JSONStorage.mk (base.delete (JSONStorage._get_file_path id)
                          (JSONStorage.files (storage self))))
       (base.delete id (sessions self))
       (auto_save_enabled self) (auto_save_interval self) (default_ttl_hours self).
Proof.
  unfold delete_session, JSONStorage.delete. cbv zeta.
  assert (Hs : forall (b : bool),
             sessions (if b then set_sessions self (base.delete id (sessions self)) else self)
             = if b then base.delete id (sessions self) else sessions self)
    by now intros [].
  destruct (bool_decide (is_Some (sessions self !! id))) eqn:Hin;
    cbn [storage sessions set_sessions].
  - destruct (JSONStorage.files (storage self) !! JSONStorage._get_file_path id) eqn:Hf.
    + reflexivity.
    + rewrite (bool_decide_eq_true_2 _ (lookup_delete_eq (sessions self) id)).
      cbn [snd set_storage sessions storage auto_save_enabled auto_save_interval
             default_ttl_hours].
      rewrite (delete_id _ _ Hf). now destruct (storage self).
  - pose proof (not_cached id self Hin) as Hn.
    rewrite (delete_id _ _ Hn).
    destruct (JSONStorage.files (storage self) !! JSONStorage._get_file_path id) eqn:Hf.
    + now destruct self.
    + rewrite (bool_decide_eq_true_2 _ Hn). cbn [snd set_storage].
      rewrite (delete_id _ _ Hf). destruct self as [[f] ? ? ? ?]. reflexivity.
Qed.

Lemma delete_all_state ids : forall self,
  sessions (delete_all ids self) = foldl (fun m id => base.delete id m) (sessions self) ids
  /\ JSONStorage.files (storage (delete_all ids self))
     = foldl (fun m id => base.delete (JSONStorage._get_file_path id) m)
         (JSONStorage.files (storage self)) ids.
Proof.
  induction ids as [|id ids IH]; intros self; [split; reflexivity|].
  cbn [delete_all foldl]. fold (delete_all ids (snd (delete_session id self))).
  destruct (IH (snd (delete_session id self))) as [-> ->].
  now rewrite delete_session_state.
Qed.

Lemma foldl_delete_lookup {V : Type} (f : str -> str) (ids : list str) :
  forall (m : gmap str V) (k : str),
    foldl (fun m id => base.delete (f id) m) m ids !! k
    = if bool_decide (k ∈ f <$> ids) then None else m !! k.
Proof.
  induction ids as [|id ids IH]; intros m k.
  - cbn. now rewrite bool_decide_eq_false_2 by apply not_elem_of_nil.
  - cbn [foldl fmap list_fmap]. rewrite IH.
    destruct (decide (k ∈ f <$> ids)) as [Hin|Hnin].
    + rewrite !bool_decide_eq_true_2; auto. now right.
    + rewrite (bool_decide_eq_false_2 _ Hnin).
      destruct (decide (k = f id)) as [->|Hne].
      * rewrite lookup_delete_eq, bool_decide_eq_true_2; [reflexivity|now left].
      * rewrite lookup_delete_ne by congruence.
        rewrite bool_decide_eq_false_2; [reflexivity|].
        intros H. apply elem_of_cons in H as [?|?]; auto.
Qed.

(** The ids found expired are the cached sessions that are expired. *)
Lemma expired_sessions_spec now self id :
  id ∈ expired_sessions now self
  <-> exists state, sessions self !! id = Some state
                    /\ AgentState.is_expired (now id) state = true.
Proof.
  unfold expired_sessions. rewrite list_elem_of_fmap. split.
  - intros ([k st] & -> & Hin). apply list_elem_of_In, List.filter_In in Hin as [Hin He].
    apply list_elem_of_In, elem_of_map_to_list in Hin. eauto.
  - intros (st & Hst & He). exists (id, st). split; [reflexivity|].
    apply list_elem_of_In, List.filter_In. split; [|exact He].
    now apply list_elem_of_In, elem_of_map_to_list.
Qed.

Lemma NoDup_filter_fst {V : Type} (f : str * V -> bool) (l : list (str * V)) :
  NoDup l.*1 -> NoDup (List.filter f l).*1.
Proof.
  induction l as [|[k v] l IH]; cbn [List.filter fmap list_fmap]; [auto|].
  intros H. apply NoDup_cons in H as [Hk Hl].
  destruct (f (k, v)); [|now apply IH].
  cbn [fmap list_fmap]. apply NoDup_cons. split; [|now apply IH].
  intros Hin. apply Hk. apply list_elem_of_fmap in Hin as ([k' v'] & -> & Hin).
  apply list_elem_of_fmap. exists (k', v'). split; [reflexivity|].
  apply list_elem_of_In in Hin. apply List.filter_In in Hin as [Hin _].
  now apply list_elem_of_In.
Qed.

(** X14. [cleanup_expired_sessions] counts the cached sessions that are
    expired, each once; afterwards the cache holds the other sessions,
    unchanged, and no expired session has a file.  It never raises: a
    deletion that raises is only logged. *)
Theorem cleanup_expired_sessions_spec (now : str -> Z) (self : t) :
  let n := fst (cleanup_expired_sessions now self) in
  let self' := snd (cleanup_expired_sessions now self) in
  (exists ids,
      NoDup ids /\ n = length ids
      /\ forall id, id ∈ ids
           <-> exists state, sessions self !! id = Some state
                             /\ AgentState.is_expired (now id) state = true)
  /\ (forall id state, sessions self !! id = Some state ->
        if AgentState.is_expired (now id) state
        then sessions self' !! id = None
             /\ JSONStorage.exists_ id (storage self') = false
        else sessions self' !! id = Some state)
  /\ (forall id, sessions self !! id = None -> sessions self' !! id = None).
Proof.
  intros n self'. unfold n, self', cleanup_expired_sessions. cbn [fst snd].
  destruct (delete_all_state (expired_sessions now self) self) as [Hs Hf].
  assert (Hlook : forall id,
            sessions (delete_all (expired_sessions now self) self) !! id
            = if bool_decide (id ∈ expired_sessions now self) then None
              else sessions self !! id).
  { intros id. rewrite Hs, (foldl_delete_lookup (fun x => x)).
    now rewrite list_fmap_id. }
  split; [|split].
  - exists (expired_sessions now self). split; [|split; [reflexivity|]].
    + apply NoDup_filter_fst, NoDup_fst_map_to_list.
    + apply expired_sessions_spec.
  - intros id state Hst. rewrite Hlook.
    destruct (AgentState.is_expired (now id) state) eqn:He.
    + assert (Hin : id ∈ expired_sessions now self)
        by (apply expired_sessions_spec; eauto).
      rewrite (bool_decide_eq_true_2 _ Hin). split; [reflexivity|].
      apply exists_false. rewrite Hf, foldl_delete_lookup.
      rewrite bool_decide_eq_true_2; [reflexivity|].
      apply list_elem_of_fmap. eauto.
    + rewrite bool_decide_eq_false_2; [exact Hst|].
      intros Hin. apply expired_sessions_spec in Hin as (st & Hst' & He').
      congruence.
  - intros id Hnone. rewrite Hlook, Hnone. now destruct (bool_decide _).
Qed.

End SessionStateFacts.

Section SessionLifeFacts.

Import StateManager.

Variable to_dict : AgentState.t -> json.
Variable from_dict : json -> result AgentState.t.





End SessionLifeFacts.

Section AutoSaveFacts.

Import StateManager.

Variable to_dict : AgentState.t -> json.







End AutoSaveFacts.


(* ===================================================================== *)
(** * More on the plug-in registry *)
(* ===================================================================== *)

Section RegistryFacts.

Import PluginManager.

Lemma set_enabled_same p : BasePlugin.set_enabled p (BasePlugin.enabled p) = p.
Proof. now destruct p. Qed.

(** What a registration does to the registry: it adds the plug-in under
    its name, or nothing. *)
Lemma register_plugin_plugins p self :
  plugins (snd (register_plugin p self)) = plugins self
  \/ exists n, BasePlugin.name p = Ok n /\ _validate_plugin p = Ok tt
               /\ fst (register_plugin p self) = Ok tt
               /\ plugins (snd (register_plugin p self)) = <[n := p]> (plugins self).
Proof.
  unfold register_plugin, register_body.
  destruct (_validate_plugin p) as [[]|e] eqn:Hv.
  - destruct (BasePlugin.name p) as [n|e] eqn:Hn; [|now left].
    destruct (BasePlugin.initialize p) as [[]|e]; [|now left].
    destruct (BasePlugin.version p) as [v|e] eqn:Hver.
    + right. exists n. repeat split.
    + exfalso. unfold _validate_plugin in Hv. rewrite Hn, Hver in Hv.
      now destruct (BasePlugin.description p).
  - destruct (BasePlugin.name p); now left.
Qed.

Lemma step_well_keyed o self : well_keyed self -> well_keyed (step o self).
Proof.
  intros Hwk. destruct o as [p|name|name|name|name context]; cbn [step].
  - destruct (register_plugin_plugins p self) as [Heq|(n & Hn & Hv & _ & Heq)];
      intros k q; rewrite Heq; [apply Hwk|].
    destruct (decide (n = k)) as [->|Hne].
    + rewrite lookup_insert_eq. now intros [= <-].
    + rewrite lookup_insert_ne by exact Hne. apply Hwk.
  - unfold unregister_plugin. destruct (plugins self !! name) as [p|] eqn:Hp; [|exact Hwk].
    destruct (BasePlugin.cleanup p); [|exact Hwk].
    intros k q. cbn [snd plugins set_plugins record_call].
    destruct (decide (name = k)) as [->|Hne].
    + now rewrite lookup_delete_eq.
    + rewrite lookup_delete_ne by exact Hne. apply Hwk.
  - unfold enable_plugin, get_plugin.
    destruct (plugins self !! name) as [p|] eqn:Hp; [|exact Hwk].
    intros k q. cbn [snd plugins set_plugins].
    destruct (decide (name = k)) as [->|Hne].
    + rewrite lookup_insert_eq. intros [= <-].
      destruct (Hwk _ _ Hp) as [H1 H2]. split; [exact H1|exact H2].
    + rewrite lookup_insert_ne by exact Hne. apply Hwk.
  - unfold disable_plugin, get_plugin.
    destruct (plugins self !! name) as [p|] eqn:Hp; [|exact Hwk].
    intros k q. cbn [snd plugins set_plugins].
    destruct (decide (name = k)) as [->|Hne].
    + rewrite lookup_insert_eq. intros [= <-].
      destruct (Hwk _ _ Hp) as [H1 H2]. split; [exact H1|exact H2].
    + rewrite lookup_insert_ne by exact Hne. apply Hwk.
  - unfold execute_plugin. destruct (plugins self !! name) as [p|]; [|exact Hwk].
    destruct (negb (BasePlugin.enabled p)); [exact Hwk|].
    now destruct (BasePlugin.execute p context).
Qed.

(** X18. Whatever calls are made on a new manager (registering,
    unregistering, enabling, disabling, executing, whether they succeed
    or raise), every plug-in in the registry is stored under the name it
    reports and has passed validation. *)
Theorem registry_well_keyed (ops : list op) : well_keyed (run ops init).
Proof.
  unfold run. induction ops as [|o ops IH] using rev_ind.
  - intros k q Hq. cbn in Hq. now rewrite lookup_empty in Hq.
  - rewrite foldl_snoc. now apply step_well_keyed.
Qed.

(** X19. [unregister_plugin]: an unknown name raises "not found" and
    calls nothing; a plug-in whose [cleanup] raises stays registered,
    and the error carries the cause; otherwise [cleanup] is called once
    and the plug-in is removed, the others staying as they are. *)
Theorem unregister_plugin_spec (name : str) (self : t) :
  (plugins self !! name = None ->
     unregister_plugin name self = (Err (PluginError (PluginNotFound name) None), self))
  /\ (forall p e, plugins self !! name = Some p -> BasePlugin.cleanup p = Err e ->
        fst (unregister_plugin name self) = Err (PluginError UnregistrationFailed (Some e))
        /\ plugins (snd (unregister_plugin name self)) = plugins self
        /\ calls (snd (unregister_plugin name self)) = calls self ++ [CallCleanup p])
  /\ (forall p, plugins self !! name = Some p -> BasePlugin.cleanup p = Ok tt ->
        fst (unregister_plugin name self) = Ok tt
        /\ plugins (snd (unregister_plugin name self)) !! name = None
        /\ (forall other, other <> name ->
              plugins (snd (unregister_plugin name self)) !! other
              = plugins self !! other)
        /\ calls (snd (unregister_plugin name self)) = calls self ++ [CallCleanup p]).
Proof.
  unfold unregister_plugin. split; [|split].
  - now intros ->.
  - intros p e -> ->. repeat split.
  - intros p -> ->. cbn [fst snd plugins calls set_plugins record_call].
    split; [reflexivity|]. split; [apply lookup_delete_eq|].
    split; [|reflexivity]. intros other Hne. now apply lookup_delete_ne.
Qed.

(** X20. Registering a plug-in under a free name and unregistering it
    again gives back the registry as it was; the plug-in's [initialize]
    and [cleanup] have each run once, in this order. *)
Theorem register_unregister (p : BasePlugin.t) (n : str) (self : t) :
  BasePlugin.name p = Ok n ->
  plugins self !! n = None ->
  fst (register_plugin p self) = Ok tt ->
  BasePlugin.cleanup p = Ok tt ->
  fst (unregister_plugin n (snd (register_plugin p self))) = Ok tt
  /\ plugins (snd (unregister_plugin n (snd (register_plugin p self)))) = plugins self
  /\ calls (snd (unregister_plugin n (snd (register_plugin p self))))
     = calls self ++ [CallInitialize p; CallCleanup p].
Proof.
  intros Hn Hfree Hok Hclean. revert Hok.
  unfold register_plugin, register_body. rewrite Hn.
  destruct (_validate_plugin p) as [[]|]; [|discriminate].
  destruct (BasePlugin.initialize p) as [[]|]; [|discriminate].
  destruct (BasePlugin.version p); [|discriminate]. intros _.
  unfold unregister_plugin. cbn [snd plugins set_plugins record_call].
  rewrite lookup_insert_eq, Hclean.
  cbn [fst snd plugins calls set_plugins record_call].
  split; [reflexivity|]. split.
  - rewrite delete_insert_eq. now apply delete_id.
  - now rewrite <- app_assoc.
Qed.

Lemma register_unregister_witness :
  fst (unregister_plugin (of_ascii "calc") (snd (register_plugin Examples.calc init)))
  = Ok tt
  /\ plugins (snd (unregister_plugin (of_ascii "calc")
                     (snd (register_plugin Examples.calc init))))
     = plugins init
  /\ calls (snd (unregister_plugin (of_ascii "calc")
                   (snd (register_plugin Examples.calc init))))
     = calls init ++ [CallInitialize Examples.calc; CallCleanup Examples.calc].
Proof.
  apply (register_unregister Examples.calc (of_ascii "calc") init); reflexivity.
Defined.

End RegistryFacts.

Section RegistryToggles.

Import PluginManager.

(** X21. [disable_plugin] followed by [enable_plugin] on a registered
    name leaves the plug-in enabled and everything else as it was (the
    whole registry, when the plug-in was enabled before), and calls no
    plug-in code; on an unknown name both raise "not found" and change
    nothing. *)
Theorem disable_enable (name : str) (self : t) :
  (forall p, plugins self !! name = Some p ->
     let self' := snd (enable_plugin name (snd (disable_plugin name self))) in
     fst (disable_plugin name self) = Ok tt
     /\ fst (enable_plugin name (snd (disable_plugin name self))) = Ok tt
     /\ plugins self' = <[name := BasePlugin.set_enabled p true]> (plugins self)
     /\ (BasePlugin.enabled p = true -> plugins self' = plugins self)
     /\ calls self' = calls self)
  /\ (plugins self !! name = None ->
        disable_plugin name self = (Err (PluginError (PluginNotFound name) None), self)
        /\ enable_plugin name self = (Err (PluginError (PluginNotFound name) None), self)).
Proof.
  unfold enable_plugin, disable_plugin, get_plugin. split.
  - intros p Hp. rewrite Hp. cbn [fst snd plugins set_plugins].
    rewrite lookup_insert_eq. cbn [fst snd plugins calls set_plugins].
    rewrite insert_insert_eq.
    split; [reflexivity|]. split; [reflexivity|]. split; [reflexivity|].
    split; [|reflexivity].
    intros Hen. apply insert_id. rewrite Hp. f_equal.
    rewrite <- (set_enabled_same p) at 1. now rewrite Hen.
  - intros ->. split; reflexivity.
Qed.

(** X22. Registering a valid plug-in under a name that is taken replaces
    the plug-in stored there.  Only [initialize] of the new plug-in is
    called: [cleanup] of the one replaced is not.  Execution under that
    name then follows the new plug-in and its own [enabled] flag. *)
Theorem register_replaces (p old : BasePlugin.t) (n : str) (self : t) :
  plugins self !! n = Some old ->
  BasePlugin.name p = Ok n ->
  _validate_plugin p = Ok tt ->
  BasePlugin.initialize p = Ok tt ->
  let self' := snd (register_plugin p self) in
  fst (register_plugin p self) = Ok tt
  /\ plugins self' = <[n := p]> (plugins self)
  /\ calls self' = calls self ++ [CallInitialize p]
  /\ (forall other, other <> n -> plugins self' !! other = plugins self !! other)
  /\ (forall context,
        BasePlugin.enabled p = true ->
        fst (execute_plugin n context self')
        = match BasePlugin.execute p context with
          | Ok res => Ok res
          | Err e => Err (PluginExecutionError ExecutionFailed e)
          end).
Proof.
  intros Hold Hn Hv Hinit.
  assert (Hver : exists v, BasePlugin.version p = Ok v).
  { unfold _validate_plugin in Hv. rewrite Hn in Hv.
    destruct (BasePlugin.description p); [|discriminate].
    destruct (BasePlugin.version p); [eauto|discriminate]. }
  destruct Hver as [v Hver].
  assert (Hreg : register_plugin p self
                 = (Ok tt, set_plugins (record_call self (CallInitialize p))
                             (<[n := p]> (plugins self)))).
  { unfold register_plugin, register_body. now rewrite Hv, Hn, Hinit, Hver. }
  rewrite Hreg. cbn [fst snd plugins calls set_plugins record_call].
  split; [reflexivity|]. split; [reflexivity|]. split; [reflexivity|].
  split; [intros other Hne; now apply lookup_insert_ne|].
  intros context Hen. unfold execute_plugin. cbn [plugins set_plugins].
  rewrite lookup_insert_eq, Hen. cbn [negb].
  now destruct (BasePlugin.execute p context).
Qed.

Lemma register_replaces_witness :
  fst (register_plugin Examples.calc Examples.registry) = Ok tt
  /\ plugins (snd (register_plugin Examples.calc Examples.registry))
     = <[of_ascii "calc" := Examples.calc]> (plugins Examples.registry)
  /\ calls (snd (register_plugin Examples.calc Examples.registry))
     = calls Examples.registry ++ [CallInitialize Examples.calc]
  /\ (forall other, other <> of_ascii "calc" ->
        plugins (snd (register_plugin Examples.calc Examples.registry)) !! other
        = plugins Examples.registry !! other)
  /\ (forall context,
        BasePlugin.enabled Examples.calc = true ->
        fst (execute_plugin (of_ascii "calc") context
               (snd (register_plugin Examples.calc Examples.registry)))
        = match BasePlugin.execute Examples.calc context with
          | Ok res => Ok res
          | Err e => Err (PluginExecutionError ExecutionFailed e)
          end).
Proof.
  apply (register_replaces Examples.calc Examples.calc (of_ascii "calc")
           Examples.registry); reflexivity.
Defined.

(** X23. [get_schemas] lists the schemas of the registered plug-ins that
    are enabled and whose [get_schema] returns: a schema is in the list
    exactly when such a plug-in has it.  A disabled plug-in and a
    plug-in whose [get_schema] raises contribute nothing. *)
Theorem get_schemas_spec (self : t) (schema : option (gmap str json)) :
  schema ∈ get_schemas self
  <-> exists name p, plugins self !! name = Some p
                     /\ BasePlugin.enabled p = true
                     /\ BasePlugin.get_schema p = Ok schema.
Proof.
  unfold get_schemas, get_enabled_plugins. rewrite list_elem_of_omap. split.
  - intros (p & Hp & Hs). apply list_elem_of_In, List.filter_In in Hp as [Hp Hen].
    apply list_elem_of_In, list_elem_of_fmap in Hp as ([name q] & -> & Hq).
    apply elem_of_map_to_list in Hq. exists name, q. cbn [snd] in *.
    split; [exact Hq|]. split; [exact Hen|].
    unfold schema_of in Hs. destruct (BasePlugin.get_schema q); congruence.
  - intros (name & p & Hp & Hen & Hs). exists p. split.
    + apply list_elem_of_In, List.filter_In. split; [|exact Hen].
      apply list_elem_of_In, list_elem_of_fmap. exists (name, p).
      split; [reflexivity|]. now apply elem_of_map_to_list.
    + unfold schema_of. now rewrite Hs.
Qed.

End RegistryToggles.

(* ===================================================================== *)
(** * Validation and preprocessing of user messages *)
(* ===================================================================== *)

Section MessageChecks.

Lemma is_blank_spec s : is_blank s = forallb isspace s.
Proof.
  unfold is_blank. destruct s as [|c s]; [reflexivity|].
  destruct (strip (c :: s)) eqn:Hs.
  - symmetry. now apply strip_nil_iff.
  - destruct (forallb isspace (c :: s)) eqn:Hb; [|reflexivity].
    apply strip_nil_iff in Hb. congruence.
Qed.

Lemma nonblank_len s : forallb isspace s = false -> 1 <= len (strip s) /\ 1 <= len s.
Proof.
  intros Hs. unfold len. split.
  - destruct (strip s) eqn:E; [|simpl; lia].
    apply strip_nil_iff in E. congruence.
  - destruct s; [discriminate|simpl; lia].
Qed.

(** X24. [validate_message] accepts a message exactly when it has a
    character that is not white space and is no longer than
    [max_length].  It raises "empty" for a blank message and "too long"
    for a longer one; its two other errors ("at least one character",
    "max_length must be at least 1") are never raised. *)
Theorem validate_message_spec (message : str) (max_length : Z) :
  (Validators.is_valid_message message max_length = true
   <-> forallb isspace message = false /\ len message <= max_length)
  /\ (forallb isspace message = true ->
        Validators.validate_message message max_length
        = Invalid Validators.MessageEmpty)
  /\ (forallb isspace message = false -> max_length < len message ->
        Validators.validate_message message max_length
        = Invalid (Validators.MessageTooLong max_length (len message)))
  /\ (forall e, Validators.validate_message message max_length = Invalid e ->
        e = Validators.MessageEmpty
        \/ e = Validators.MessageTooLong max_length (len message)).
Proof.
  unfold Validators.is_valid_message, Validators.validate_message,
    Validators.MESSAGE_MIN_LENGTH.
  rewrite is_blank_spec.
  destruct (forallb isspace message) eqn:Hb.
  - split; [split; [discriminate|now intros [? _]]|].
    split; [reflexivity|]. split; [discriminate|]. intros e [= <-]. now left.
  - destruct (nonblank_len message Hb) as [H1 H2].
    destruct (Z.ltb_spec (len (strip message)) 1) as [?|_]; [lia|].
    destruct (Z.gtb_spec (len message) max_length) as [Hgt|Hle].
    + split; [split; [discriminate|intros [_ ?]; lia]|].
      split; [discriminate|]. split; [reflexivity|]. intros e [= <-]. now right.
    + destruct (Z.ltb_spec max_length 1) as [?|_]; [lia|].
      split; [split; [auto|reflexivity]|].
      split; [discriminate|]. split; [intros; lia|discriminate].
Qed.

End MessageChecks.

Section PreprocessFacts.

Import MessageProcessor.

Lemma replace_by_keeps (P : N -> Prop) old new s :
  Forall P new -> Forall P s -> Forall P (replace_by old new s).
Proof.
  intros Hnew Hs. unfold replace_by.
  induction Hs as [|c s Hc _ IH]; cbn [flat_map]; [constructor|].
  apply Forall_app. split; [|exact IH].
  destruct (c =? old)%N; [exact Hnew|now constructor].
Qed.

Lemma replace_by_removes (P : N -> Prop) old new s :
  Forall (fun c => P c /\ c <> old) new -> Forall P s ->
  Forall (fun c => P c /\ c <> old) (replace_by old new s).
Proof.
  intros Hnew Hs. unfold replace_by.
  induction Hs as [|c s Hc _ IH]; cbn [flat_map]; [constructor|].
  apply Forall_app. split; [|exact IH].
  destruct (N.eqb_spec c old); [exact Hnew|now repeat constructor].
Qed.

Ltac each_character :=
  cbv [of_ascii N_of_ascii N_of_digits]; simpl;
  repeat (constructor;
          [repeat split; try exact I;
           try (vm_compute; let H := fresh in intros H; discriminate H)|]);
  constructor.

Lemma html_escape_not_markup s : Forall not_markup (html_escape s).
Proof.
  unfold html_escape.
  assert (H : Forall (fun _ => True) (replace_by 38 (of_ascii "&amp;") s))
    by (apply Forall_true; auto).
  eapply (replace_by_removes _ 0x3C (of_ascii "&lt;")) in H; [|each_character].
  eapply (replace_by_removes _ 0x3E (of_ascii "&gt;")) in H; [|each_character].
  eapply (replace_by_removes _ 0x22 (of_ascii "&quot;")) in H; [|each_character].
  eapply (replace_by_removes _ 0x27 (of_ascii "&#x27;")) in H; [|each_character].
  eapply List.Forall_impl; [|exact H].
  intros c Hc. cbv beta in Hc. unfold not_markup.
  destruct Hc as [[[[_ H1] H2] H3] H4]. auto.
Qed.

Lemma collapse_plain_space b s : Forall plain_space (collapse b s).
Proof.
  revert b. induction s as [|c s IH]; intros b; cbn [collapse]; [constructor|].
  destruct (isspace c) eqn:Hc.
  - destruct b; [apply IH|]. constructor; [now intros _|apply IH].
  - constructor; [|apply IH]. unfold plain_space. congruence.
Qed.

Lemma html_escape_plain_space s : Forall plain_space s -> Forall plain_space (html_escape s).
Proof.
  intros Hs. unfold html_escape.
  repeat (apply replace_by_keeps; [each_character|]).
  exact Hs.
Qed.

Lemma slice_to_forall (P : N -> Prop) k s : Forall P s -> Forall P (slice_to k s).
Proof.
  intros Hs. unfold slice_to.
  rewrite <- (firstn_skipn (slice_index (Z.of_nat (length s)) k) s) in Hs.
  now apply List.Forall_app in Hs as [H _].
Qed.

Lemma slice_to_len k s : 0 <= k -> len (slice_to k s) <= k.
Proof.
  intros Hk. unfold slice_to, slice_index, len. rewrite length_firstn.
  destruct (Z.ltb_spec k 0); lia.
Qed.

Lemma preprocess_length (message : str) (self : t) :
  0 <= max_length self -> len (preprocess message self) <= max_length self.
Proof.
  intros Hmax. unfold preprocess. cbv zeta.
  destruct (Z.gtb_spec (len (html_escape (collapse false (strip message))))
              (max_length self)) as [Hgt|Hle]; [now apply slice_to_len|exact Hle].
Qed.

(** X25. The text [preprocess] returns holds none of [<], [>], the
    double quote and the single quote; its only white space is the plain
    space; and it is no longer than [max_length], when that is not
    negative. *)
Theorem preprocess_safe (message : str) (self : t) :
  Forall not_markup (preprocess message self)
  /\ Forall plain_space (preprocess message self)
  /\ (0 <= max_length self -> len (preprocess message self) <= max_length self).
Proof.
  unfold preprocess. cbv zeta.
  set (escaped := html_escape (collapse false (strip message))).
  assert (H1 : Forall not_markup escaped) by apply html_escape_not_markup.
  assert (H2 : Forall plain_space escaped)
    by apply html_escape_plain_space, collapse_plain_space.
  destruct (Z.gtb_spec (len escaped) (max_length self)) as [Hgt|Hle].
  - split; [now apply slice_to_forall|]. split; [now apply slice_to_forall|].
    apply slice_to_len.
  - split; [exact H1|]. split; [exact H2|]. intros _. exact Hle.
Qed.

Variable lower : str -> str.

(** X26. In the pipeline of the agent, [validate] runs on what
    [preprocess] returned.  With a [max_length] that is not negative it
    then never raises "too long"; and a message of white space only is
    refused as empty. *)
Theorem validate_after_preprocess (message : str) (self : t) :
  0 <= max_length self ->
  (forall max got,
     validate lower (preprocess message self) self <> Invalid (TooLong max got))
  /\ (forallb isspace message = true ->
        validate lower (preprocess message self) self = Invalid Empty).
Proof.
  intros Hmax. split.
  - intros max got. unfold validate.
    pose proof (preprocess_length message self Hmax) as Hlen.
    destruct (is_blank _); [discriminate|].
    destruct (_ <? _); [discriminate|].
    destruct (Z.gtb_spec (len (preprocess message self)) (max_length self)); [lia|].
    destruct (first_forbidden _ _ _); discriminate.
  - intros Hb. apply strip_nil_iff in Hb. unfold validate, preprocess.
    rewrite Hb. cbn [collapse html_escape replace_by flat_map].
    destruct (_ >? _); [|reflexivity].
    unfold slice_to. now rewrite firstn_nil.
Qed.

End PreprocessFacts.

Lemma validate_after_preprocess_witness :
  (forall max got,
     MessageProcessor.validate Examples.ascii_lower
       (MessageProcessor.preprocess (of_ascii "  <b>Hello   world</b>  ")
          Examples.processor) Examples.processor
     <> Invalid (MessageProcessor.TooLong max got))
  /\ (forallb isspace (of_ascii "  <b>Hello   world</b>  ") = true ->
        MessageProcessor.validate Examples.ascii_lower
          (MessageProcessor.preprocess (of_ascii "  <b>Hello   world</b>  ")
             Examples.processor) Examples.processor
        = Invalid MessageProcessor.Empty).
Proof.
  apply (validate_after_preprocess Examples.ascii_lower
           (of_ascii "  <b>Hello   world</b>  ") Examples.processor).
  vm_compute. discriminate.
Defined.

(** The message above, preprocessed: escaped, and cut at ten characters. *)
Example preprocess_cuts :
  MessageProcessor.preprocess (of_ascii "  <b>Hello   world</b>  ") Examples.processor
  = of_ascii "&lt;b&gt;H".
Proof. reflexivity. Qed.

Section PipelineFacts.

Variable lower : str -> str.

(** X27. A text that [validate] accepts always makes a message: the
    constructor of [Message] does not raise on it, and the content it
    stores is the text stripped (preprocessing can leave a space at the
    end, where it cut). *)
Theorem validated_text_makes_message (text : str) (self : MessageProcessor.t)
  (r : Role) (now : Z) :
  MessageProcessor.validate lower text self = Valid ->
  MessageModel.new r text None now = Ok (mkMessage r (strip text) now None).
Proof.
  unfold MessageProcessor.validate. rewrite is_blank_spec.
  destruct (forallb isspace text) eqn:Hb; [discriminate|]. intros _.
  unfold MessageModel.new.
  destruct (validate_content_cases text) as [_ Hgood].
  now destruct (Hgood Hb) as (-> & _).
Qed.

End PipelineFacts.

Lemma validated_text_makes_message_witness :
  MessageModel.new user (of_ascii "Hi you ") None 5
  = Ok (mkMessage user (strip (of_ascii "Hi you ")) 5 None).
Proof.
  apply (validated_text_makes_message Examples.ascii_lower (of_ascii "Hi you ")
           Examples.processor user 5).
  reflexivity.
Defined.

(* ===================================================================== *)
(** * Retries *)
(* ===================================================================== *)

Section RetryFacts.

Import ResponseGenerator.

Context {A : Type}.
Variable func : nat -> result A.
Variable max_retries : Z.

Lemma slept_app l1 l2 : slept (l1 ++ l2) = slept l1 + slept l2.
Proof.
  unfold slept. induction l1 as [|[k|n] l1 IH]; cbn [app fold_right]; lia.
Qed.

Lemma calls_made_app l1 l2 : calls_made (l1 ++ l2) = (calls_made l1 + calls_made l2)%nat.
Proof. unfold calls_made. now rewrite List.filter_app, length_app. Qed.

(** The loop from attempt [a] on, when the call succeeds at attempt [k]
    and fails before. *)
Lemma retry_loop_success (k : nat) (x : A) : forall remaining a last log,
  (a <= k < a + remaining)%nat ->
  Z.of_nat (a + remaining) <= max_retries ->
  func k = Ok x ->
  (forall j, (a <= j < k)%nat -> fails func j) ->
  let r := retry_loop func max_retries a remaining last log in
  fst r = Returned x
  /\ calls_made (snd r) = (calls_made log + (k - a + 1))%nat
  /\ slept (snd r) = slept log + 2 ^ Z.of_nat k - 2 ^ Z.of_nat a.
Proof.
  induction remaining as [|remaining IH]; intros a last log Hk Hmax Hok Hfail; [lia|].
  cbn [retry_loop]. destruct (Nat.eq_dec a k) as [->|Hne].
  - rewrite Hok. cbn [fst snd]. rewrite calls_made_app, slept_app.
    cbn. split; [reflexivity|]. split; lia.
  - destruct (Hfail a ltac:(lia)) as [e He]. rewrite He.
    destruct (Z.ltb_spec (Z.of_nat a) (max_retries - 1)) as [_|Hge]; [|lia].
    destruct (IH (S a) (Some e) (log ++ [Called a; Slept (2 ^ Z.of_nat a)]))
      as (H1 & H2 & H3); [lia|lia|exact Hok|intros j Hj; apply Hfail; lia|].
    cbv zeta in *. rewrite H1, H2, H3, calls_made_app, slept_app. cbn.
    split; [reflexivity|]. split; [lia|].
    rewrite Nat2Z.inj_succ, Z.pow_succ_r by lia. lia.
Qed.

(** The loop from attempt [a] on, when every call fails. *)
Lemma retry_loop_failure : forall remaining a last log,
  Z.of_nat (a + remaining) = max_retries ->
  (forall j, (a <= j < a + remaining)%nat -> fails func j) ->
  let r := retry_loop func max_retries a remaining last log in
  (remaining = 0%nat -> r = (GaveUp last, log))
  /\ ((0 < remaining)%nat ->
        (exists e, func (a + remaining - 1)%nat = Err e /\ fst r = GaveUp (Some e))
        /\ calls_made (snd r) = (calls_made log + remaining)%nat
        /\ slept (snd r)
           = slept log + 2 ^ Z.of_nat (a + remaining - 1) - 2 ^ Z.of_nat a).
Proof.
  induction remaining as [|remaining IH]; intros a last log Hmax Hfail.
  - split; [reflexivity|lia].
  - split; [discriminate|]. intros _. cbn [retry_loop].
    destruct (Hfail a ltac:(lia)) as [e He]. rewrite He.
    destruct (Z.ltb_spec (Z.of_nat a) (max_retries - 1)) as [Hlt|Hge].
    + destruct (IH (S a) (Some e) (log ++ [Called a; Slept (2 ^ Z.of_nat a)]))
        as (_ & Hpos); [lia|intros j Hj; apply Hfail; lia|].
      destruct Hpos as ((e' & He' & H1) & H2 & H3); [lia|].
      cbv zeta in *. replace (a + S remaining - 1)%nat with (S a + remaining - 1)%nat by lia.
      split; [eauto|]. rewrite H2, H3, calls_made_app, slept_app. cbn.
      split; [lia|]. rewrite Nat2Z.inj_succ, Z.pow_succ_r by lia. lia.
    + assert (remaining = 0%nat) as -> by lia.
      cbn [retry_loop fst snd]. rewrite calls_made_app, slept_app. cbn.
      replace (a + 1 - 1)%nat with a by lia.
      split; [eauto|]. split; lia.
Qed.

(** X28. [_retry_with_backoff] with [max_retries] attempts.  When the
    call first succeeds at attempt [k], its result is returned after
    [k + 1] calls and [2^k - 1] seconds of sleep.  When every attempt
    fails it gives up with the last exception after [max_retries] calls
    and [2^(max_retries - 1) - 1] seconds of sleep, without sleeping
    after the last attempt.  With no attempt allowed it gives up at once
    without calling. *)
Theorem retry_with_backoff_spec :
  (forall k x, Z.of_nat k < max_retries -> func k = Ok x ->
     (forall j, (j < k)%nat -> fails func j) ->
     fst (_retry_with_backoff func max_retries) = Returned x
     /\ calls_made (snd (_retry_with_backoff func max_retries)) = S k
     /\ slept (snd (_retry_with_backoff func max_retries)) = 2 ^ Z.of_nat k - 1)
  /\ (0 < max_retries ->
      (forall j, Z.of_nat j < max_retries -> fails func j) ->
      (exists e, func (Z.to_nat max_retries - 1)%nat = Err e
                 /\ fst (_retry_with_backoff func max_retries) = GaveUp (Some e))
      /\ Z.of_nat (calls_made (snd (_retry_with_backoff func max_retries))) = max_retries
      /\ slept (snd (_retry_with_backoff func max_retries)) = 2 ^ (max_retries - 1) - 1)
  /\ (max_retries <= 0 -> _retry_with_backoff func max_retries = (GaveUp None, [])).
Proof.
  unfold _retry_with_backoff. split; [|split].
  - intros k x Hk Hok Hfail.
    destruct (retry_loop_success k x (Z.to_nat max_retries) 0%nat None [])
      as (H1 & H2 & H3); [lia|lia|exact Hok|intros j Hj; apply Hfail; lia|].
    cbv zeta in *. rewrite H1, H2, H3. cbn. split; [reflexivity|]. split; lia.
  - intros Hpos Hfail.
    destruct (retry_loop_failure (Z.to_nat max_retries) 0%nat None [])
      as (_ & H); [lia|intros j Hj; apply Hfail; lia|].
    destruct H as (He & H2 & H3); [lia|]. cbv zeta in *.
    split; [exact He|]. rewrite H2, H3. cbn.
    split; [lia|].
    replace (Z.of_nat (Z.to_nat max_retries - 1)) with (max_retries - 1) by lia.
    lia.
  - intros Hle. now replace (Z.to_nat max_retries) with 0%nat by lia.
Qed.

End RetryFacts.
